(** * A shallow embedding of the POSCAR reader and writer of vasp-poscar

    The source is [src/parse.rs] (the line reader, the primitive
    sub-parsers, the coordinate-line classifier and [_from_reader]) and
    [src/write.rs] ([to_writer]).

    Modelling conventions:
    - a Rust [char] is its Unicode scalar value, an [N]; a [str] is the
      list of its chars.  Columns are byte offsets, as in the source, so
      each char counts for the length of its UTF-8 encoding;
    - the text handed to [from_reader] is split by [BufRead::lines]
      ([lines_of]); the parser then works on that list of lines;
    - [f64] is kept abstract: a type [F] with the parser [str::parse::<f64>]
      ([parse_f64]), [partial_cmp] against [0.0] ([fcmp]), negation
      ([fneg]) and the [dtoa] printer ([dtoa]);
    - the result of a call is [Ok], a [ParseError] ([Err]) or a panic
      ([Panic]); an arithmetic overflow on [usize] panics (the checked
      semantics of Rust's integer operators). *)

From Stdlib Require Import Ascii String List NArith ZArith Lia Bool.
Import ListNotations.
Open Scope N_scope.

(** ** Characters and strings *)

Abbreviation char := N (only parsing).
Abbreviation str := (list N) (only parsing).

(** [is_ascii_whitespace] of [parse.rs]: space, tab, CR, LF. *)
Definition is_ascii_whitespace (c : char) : bool :=
  (c =? 32) || (c =? 9) || (c =? 13) || (c =? 10).

(** [char::is_whitespace] (Unicode White_Space), used by [str::trim]
    and [str::trim_end]. *)
Definition is_whitespace (c : char) : bool :=
  ((9 <=? c) && (c <=? 13)) || (c =? 32) || (c =? 133) || (c =? 160)
  || (c =? 5760) || ((8192 <=? c) && (c <=? 8202)) || (c =? 8232)
  || (c =? 8233) || (c =? 8239) || (c =? 8287) || (c =? 12288).

(** Length of the UTF-8 encoding of a char. *)
Definition utf8_len (c : char) : nat :=
  if c <? 128 then 1 else if c <? 2048 then 2 else if c <? 65536 then 3 else 4.

Definition byte_len (s : str) : nat := fold_right (fun c n => (utf8_len c + n)%nat) 0%nat s.

Fixpoint trim_start (s : str) : str :=
  match s with
  | [] => []
  | c :: s' => if is_whitespace c then trim_start s' else s
  end.

Definition trim_end (s : str) : str := rev (trim_start (rev s)).

Definition trim (s : str) : str := trim_end (trim_start s).

Definition is_digit (c : char) : bool := (48 <=? c) && (c <=? 57).

(** Conversion of an ASCII literal, for concrete inputs. *)
Fixpoint s2l (s : string) : str :=
  match s with
  | EmptyString => []
  | String a s' => N_of_ascii a :: s2l s'
  end.

(** ** Error model *)

Inductive Kind :=
| ParseFloat
| ParseLogical
| ParseUnsigned
| Generic (msg : string).

Record ParseError := mkErr { kind : Kind; eline : option nat; ecol : option nat }.

Inductive res (A : Type) :=
| Ok (a : A)
| Err (e : ParseError)
| Panic (msg : string).
Arguments Ok {A}.
Arguments Err {A}.
Arguments Panic {A}.

Definition bind {A B} (m : res A) (f : A -> res B) : res B :=
  match m with
  | Ok a => f a
  | Err e => Err e
  | Panic m => Panic m
  end.

Notation "x <- m ;; k" := (bind m (fun x => k))
  (at level 61, m at next level, right associativity).
Notation "' p <- m ;; k" := (bind m (fun x => match x with p => k end))
  (at level 61, p pattern, m at next level, right associativity).

(** ** Spanned strings and [Lines] *)

Record Spanned := mkSpanned { sline : nat; scol : nat; stext : str }.

Definition span_error (sp : Spanned) (k : Kind) : ParseError :=
  mkErr k (Some (sline sp)) (Some (scol sp)).

(** [Lines { cur, lines }]: the number of the next line and the lines not
    yet read.  The iterator is fused: at the end it stays at the end. *)
Record Lines := mkLines { cur : nat; rest : list str }.

Definition eof_error (st : Lines) : ParseError :=
  mkErr (Generic "unexpected end of file") (Some (cur st)) None.

(** [Lines::next] *)
Definition next (st : Lines) : res (Spanned * Lines) :=
  match rest st with
  | [] => Err (eof_error st)
  | l :: ls => Ok (mkSpanned (cur st) 0 l, mkLines (S (cur st)) ls)
  end.

(** [Spanned::words]: the maximal runs of non-[is_ascii_whitespace]
    chars, each with its byte column.  [acc] holds the word being read
    (its start column and its chars in reverse). *)
Fixpoint words_go (s : str) (off : nat) (acc : option (nat * str)) : list (nat * str) :=
  match s with
  | [] => match acc with None => [] | Some (st, w) => [(st, rev w)] end
  | c :: s' =>
      if is_ascii_whitespace c then
        match acc with
        | None => words_go s' (off + utf8_len c) None
        | Some (st, w) => (st, rev w) :: words_go s' (off + utf8_len c) None
        end
      else
        match acc with
        | None => words_go s' (off + utf8_len c) (Some (off, [c]))
        | Some (st, w) => words_go s' (off + utf8_len c) (Some (st, c :: w))
        end
  end%nat.

Definition words (sp : Spanned) : list Spanned :=
  map (fun '(o, w) => mkSpanned (sline sp) (scol sp + o) w) (words_go (stext sp) 0 None).

(** [Words::next_or_err] *)
Definition next_or_err (sp : Spanned) (ws : list Spanned) (msg : string)
  : res (Spanned * list Spanned) :=
  match ws with
  | [] => Err (mkErr (Generic msg) (Some (sline sp)) None)
  | w :: ws' => Ok (w, ws')
  end.

(** [Spanned::control_char] *)
Definition control_char (sp : Spanned) : option char := hd_error (stext sp).

(** [Lines::expect_blank_until_eof]: read lines until [next] fails; the
    first word found is an error. *)
Fixpoint expect_blank_go (fuel : nat) (st : Lines) : res Lines :=
  match fuel with
  | O => Ok st
  | S f =>
      match next st with
      | Ok (l, st') =>
          match words l with
          | w :: _ => Err (span_error w (Generic "expected end of file"))
          | [] => expect_blank_go f st'
          end
      | _ => Ok st
      end
  end.

Definition expect_blank_until_eof (st : Lines) : res Lines :=
  expect_blank_go (S (length (rest st))) st.

(** ** Primitive sub-parsers *)

(** [impl FromStr for Logical]: an optional ['.'], then one of [tTfF];
    the rest is ignored. *)
Definition logical_from_str (input : str) : option bool :=
  let s := match input with
           | c :: s' => if c =? 46 then s' else input
           | [] => []
           end in
  match s with
  | c :: _ =>
      if (c =? 116) || (c =? 84) then Some true
      else if (c =? 102) || (c =? 70) then Some false
      else None
  | [] => None
  end.

Definition u64_bound : N := 2 ^ 64.

(** The digit loop of [u64::from_str_radix(_, 10)]: each char must be a
    decimal digit, and [checked_mul]/[checked_add] must not overflow. *)
Fixpoint u64_digits (s : str) (acc : N) : option N :=
  match s with
  | [] => Some acc
  | c :: s' =>
      if is_digit c then
        let a := acc * 10 + (c - 48) in
        if a <? u64_bound then u64_digits s' a else None
      else None
  end.

(** [<u64 as FromStr>::from_str]: empty input fails, a lone sign fails,
    one leading ['+'] is skipped ([-] is an invalid digit for an unsigned
    type). *)
Definition u64_from_str (s : str) : option N :=
  match s with
  | [] => None
  | [c] => if (c =? 43) || (c =? 45) then None else u64_digits s 0
  | c :: s' => if c =? 43 then u64_digits s' 0 else u64_digits s 0
  end.

(** [impl FromStr for Unsigned]: a leading ['+'] is refused, the rest is
    [u64]'s grammar. *)
Definition unsigned_from_str (input : str) : option N :=
  match input with
  | 43 :: _ => None
  | _ => u64_from_str input
  end.

(** [is_valid_symbol_for_symbol_line] *)
Definition is_valid_symbol_for_symbol_line (s : str) : bool :=
  match s with
  | [] => false
  | c :: _ => negb (existsb is_ascii_whitespace s) && negb (is_digit c)
  end.

(** [CoordLineType] and [classify_coord_line] *)
Inductive CoordLineType :=
| Cartesian
| Direct
| IndentedText
| EmptyOrWhitespace
| SuspiciouslyDirect.

Definition classify_coord_line (line : str) : CoordLineType :=
  match trim_end line with
  | [] => EmptyOrWhitespace
  | c :: _ =>
      if (c =? 99) || (c =? 67) || (c =? 107) || (c =? 75) then Cartesian
      else if (c =? 100) || (c =? 68) then Direct
      else if is_ascii_whitespace c then IndentedText
      else SuspiciouslyDirect
  end.

(** [group_counts.iter().sum()] on [usize]: a left fold whose additions
    panic on overflow. *)
Fixpoint usize_sum_go (xs : list N) (acc : N) : res N :=
  match xs with
  | [] => Ok acc
  | x :: xs' =>
      if acc + x <? u64_bound then usize_sum_go xs' (acc + x)
      else Panic "attempt to add with overflow"
  end.

Definition usize_sum (xs : list N) : res N := usize_sum_go xs 0.

(** The mathematical sum, used to state the invariants. *)
Definition sumN (xs : list N) : N := fold_right N.add 0 xs.

Fixpoint mapM {A B} (f : A -> res B) (xs : list A) : res (list B) :=
  match xs with
  | [] => Ok []
  | x :: xs' => y <- f x ;; ys <- mapM f xs' ;; Ok (y :: ys)
  end.

(** ** Decimal display *)

(** [Display] of a [usize]: its decimal digits. *)
Fixpoint digits_go (fuel : nat) (n : N) (acc : str) : str :=
  match fuel with
  | O => acc
  | S f =>
      let acc' := (48 + n mod 10) :: acc in
      if n <? 10 then acc' else digits_go f (n / 10) acc'
  end.

Definition show_N (n : N) : str := digits_go (S (N.to_nat (N.size n))) n [].

(** ** A test instance of the [f64] interface

    Integers with an optional fractional part of zeros, and [NaN]; used
    only to run the parser on concrete inputs. *)
Module ToyFloat.

Definition t : Type := option Z.

Definition dec_fold (s : str) : N := fold_left (fun a c => a * 10 + (c - 48)) s 0.

Fixpoint span_digits (s : str) : str * str :=
  match s with
  | c :: s' => if is_digit c then let (d, r) := span_digits s' in (c :: d, r) else ([], s)
  | [] => ([], [])
  end.

Definition unsigned_part (s : str) : option N :=
  let (d, r) := span_digits s in
  match d, r with
  | [], _ => None
  | _, [] => Some (dec_fold d)
  | _, 46 :: fr => if forallb (fun c => c =? 48) fr then Some (dec_fold d) else None
  | _, _ => None
  end.

Definition parse (s : str) : option t :=
  if list_eq_dec N.eq_dec s (s2l "NaN") then Some None else
  match s with
  | 45 :: s' => option_map (fun n => Some (- Z.of_N n)%Z) (unsigned_part s')
  | 43 :: s' => option_map (fun n => Some (Z.of_N n)) (unsigned_part s')
  | _ => option_map (fun n => Some (Z.of_N n)) (unsigned_part s)
  end.

Definition print (x : t) : str :=
  match x with
  | None => s2l "NaN"
  | Some z => (if (z <? 0)%Z then [45] else []) ++ show_N (Z.abs_N z) ++ s2l ".0"
  end.

Definition cmp (x : t) : option comparison := option_map (fun z => Z.compare z 0) x.

Definition neg (x : t) : t := option_map Z.opp x.

End ToyFloat.

(** ** The document *)

Section Poscar.

(** The [f64] operations the code uses. *)
Variable F : Type.
(** [str::parse::<f64>] *)
Variable parse_f64 : str -> option F.
(** [value.partial_cmp(&0.0)] *)
Variable fcmp : F -> option comparison.
(** unary [-] *)
Variable fneg : F -> F.
(** the text [dtoa::write] produces *)
Variable dtoa : F -> str.

Definition v3 : Type := (F * F * F)%type.

Inductive ScaleLine :=
| Factor (x : F)
| Volume (x : F).

Inductive Coords :=
| Cart (xs : list v3)
| Frac (xs : list v3).

Definition coords_raw (c : Coords) : list v3 :=
  match c with Cart xs => xs | Frac xs => xs end.

(** [RawPoscar]; a [Poscar] is a [RawPoscar] that passed [validate]. *)
Record RawPoscar := mkPoscar {
  comment : str;
  scale : ScaleLine;
  lattice_vectors : v3 * v3 * v3;
  group_symbols : option (list str);
  group_counts : list N;
  positions : Coords;
  velocities : option Coords;
  dynamics : option (list (bool * bool * bool))
}.

(** ** [_from_reader] *)

(** [word.parse::<f64>()] on a spanned word *)
Definition parse_float (w : Spanned) : res F :=
  match parse_f64 (stext w) with
  | Some x => Ok x
  | None => Err (span_error w ParseFloat)
  end.

(** [arr_3![_ => words.next_or_err(msg)?.parse()?]] *)
Definition read3 (line : Spanned) (ws : list Spanned) (msg : string)
  : res (v3 * list Spanned) :=
  '(w0, ws) <- next_or_err line ws msg ;; x0 <- parse_float w0 ;;
  '(w1, ws) <- next_or_err line ws msg ;; x1 <- parse_float w1 ;;
  '(w2, ws) <- next_or_err line ws msg ;; x2 <- parse_float w2 ;;
  Ok ((x0, x1, x2), ws).

(** The scale line (parse.rs, 409-445). *)
Definition scale_of_line (line : Spanned) : res ScaleLine :=
  '(word, ws) <- next_or_err line (words line) "expected scale" ;;
  value <- parse_float word ;;
  scale <- match fcmp value with
           | Some Lt => Ok (Volume (fneg value))
           | Some Gt => Ok (Factor value)
           | Some Eq => Err (span_error word (Generic "scale cannot be zero"))
           | None => Err (span_error word (Generic "scale cannot be nan"))
           end ;;
  match ws with
  | w :: _ =>
      match parse_f64 (stext w) with
      | Some _ => Err (span_error w (Generic "too many floats on scale line (expected just one)"))
      | None => Ok scale
      end
  | [] => Ok scale
  end.

Definition lattice_row (st : Lines) : res (v3 * Lines) :=
  '(line, st) <- next st ;;
  '(v, _) <- read3 line (words line) "expected three components for lattice vector" ;;
  Ok (v, st).

(** The symbols line is checked word by word. *)
Definition parse_symbols (ws : list Spanned) : res (list str) :=
  mapM (fun w => if is_valid_symbol_for_symbol_line (stext w) then Ok (stext w)
                 else Err (span_error w (Generic "invalid symbol"))) ws.

(** [words().map(parse_unsigned).take_while(is_ok).collect()] *)
Fixpoint take_counts (ws : list Spanned) : list N :=
  match ws with
  | [] => []
  | w :: ws' =>
      match unsigned_from_str (stext w) with
      | Some x => x :: take_counts ws'
      | None => []
      end
  end.

(** The first line of the symbols and counts block decides whether a
    symbols line is present (parse.rs, 458-478); the result is the symbols
    and the counts line. *)
Definition symbols_stage (line : Spanned) (st : Lines)
  : res (option (list str) * Spanned * Lines) :=
  _ <- next_or_err line (words line) "expected at least one element or count" ;;
  match trim (stext line) with
  | [] => Panic "index out of bounds"
  | c :: _ =>
      if is_digit c then Ok (None, line, st)
      else kinds <- parse_symbols (words line) ;;
           '(cl, st) <- next st ;;
           Ok (Some kinds, cl, st)
  end.

(** Symbols and counts (parse.rs, 457-499), from the first line of the
    block on. *)
Definition counts_block (line : Spanned) (st : Lines)
  : res (option (list str) * list N * N * Lines) :=
  '(syms, counts_line, st) <- symbols_stage line st ;;
  let counts := take_counts (words counts_line) in
  _ <- match syms with
       | Some s =>
           if Nat.eqb (length s) (length counts) then Ok tt
           else Err (span_error counts_line (Generic "Inconsistent number of counts"))
       | None => Ok tt
       end ;;
  n <- usize_sum counts ;;
  if n =? 0 then Err (span_error counts_line (Generic "There must be at least one atom."))
  else Ok (syms, counts, n, st).

(** The flag lines (parse.rs, 503-523): selective dynamics and the
    coordinate system; the result is [(has_direct, has_selective_dynamics)]. *)
Definition flag_lines (st : Lines) : res (bool * bool * Lines) :=
  '(line, st) <- next st ;;
  '(sd, line, st) <-
    match control_char line with
    | Some c =>
        if (c =? 115) || (c =? 83) then '(l, st) <- next st ;; Ok (true, l, st)
        else Ok (false, line, st)
    | None => Ok (false, line, st)
    end ;;
  let has_direct := match classify_coord_line (stext line) with
                    | Cartesian => false
                    | _ => true
                    end in
  Ok (has_direct, sd, st).

Definition read_flag (line : Spanned) (ws : list Spanned) : res (bool * list Spanned) :=
  '(w, ws) <- next_or_err line ws "expected 3 boolean flags" ;;
  match logical_from_str (stext w) with
  | Some b => Ok (b, ws)
  | None => Err (span_error w ParseLogical)
  end.

(** One position line: 3 coordinates, then 3 flags under selective
    dynamics. *)
Definition position_line (sd : bool) (line : Spanned)
  : res (v3 * option (bool * bool * bool)) :=
  '(p, ws) <- read3 line (words line) "expected 3 coordinates" ;;
  if sd then
    '(b0, ws) <- read_flag line ws ;;
    '(b1, ws) <- read_flag line ws ;;
    '(b2, _) <- read_flag line ws ;;
    Ok (p, Some (b0, b1, b2))
  else Ok (p, None).

(** The data lines: [for _ in 0..n]. *)
Fixpoint position_lines (k : nat) (sd : bool) (st : Lines)
  : res (list v3 * list (bool * bool * bool) * Lines) :=
  match k with
  | O => Ok ([], [], st)
  | S k' =>
      '(line, st) <- next st ;;
      '(p, d) <- position_line sd line ;;
      '(ps, ds, st) <- position_lines k' sd st ;;
      Ok (p :: ps, match d with Some b => b :: ds | None => ds end, st)
  end.

(** The [n - 1] velocity lines after the first one. *)
Fixpoint velocity_lines (k : nat) (st : Lines) : res (list v3 * Lines) :=
  match k with
  | O => Ok ([], st)
  | S k' =>
      '(line, st) <- next st ;;
      '(v, _) <- read3 line (words line) "expected 3 coordinates" ;;
      '(vs, st) <- velocity_lines k' st ;;
      Ok (v :: vs, st)
  end.

Inductive PresenceIs := Required | Possible.

(** The velocity block (parse.rs, 569-660). *)
Definition velocities_block (n : N) (st : Lines) : res (option Coords * Lines) :=
  match next st with
  | Err _ => Ok (None, st)
  | Panic m => Panic m
  | Ok (line, st) =>
      let '(has_direct, status) :=
        match classify_coord_line (stext line) with
        | Cartesian => (false, Required)
        | EmptyOrWhitespace => (true, Possible)
        | _ => (true, Required)
        end in
      match next st, status with
      | Err e, Required => Err e
      | Err _, Possible => Ok (None, st)
      | Panic m, _ => Panic m
      | Ok (line, st), _ =>
          match status, trim (stext line) with
          | Possible, [] =>
              st <- expect_blank_until_eof st ;; Ok (None, st)
          | _, _ =>
              if n =? 0 then Panic "BUG" else
              '(v0, _) <- read3 line (words line) "expected 3 coordinates" ;;
              '(vs, st) <- velocity_lines (N.to_nat (n - 1)) st ;;
              Ok (Some (if has_direct then Frac (v0 :: vs) else Cart (v0 :: vs)), st)
          end
      end
  end.

(** Everything up to the last position line. *)
Record Head := mkHead {
  h_comment : str;
  h_scale : ScaleLine;
  h_lattice : v3 * v3 * v3;
  h_symbols : option (list str);
  h_counts : list N;
  h_n : N;
  h_positions : Coords;
  h_dynamics : option (list (bool * bool * bool))
}.

Definition parse_head (st : Lines) : res (Head * Lines) :=
  '(cline, st) <- next st ;;
  '(sline, st) <- next st ;;
  scale <- scale_of_line sline ;;
  '(a, st) <- lattice_row st ;;
  '(b, st) <- lattice_row st ;;
  '(c, st) <- lattice_row st ;;
  '(line, st) <- next st ;;
  '(syms, counts, n, st) <- counts_block line st ;;
  '(has_direct, sd, st) <- flag_lines st ;;
  '(ps, ds, st) <- position_lines (N.to_nat n) sd st ;;
  Ok (mkHead (stext cline) scale (a, b, c) syms counts n
             (if has_direct then Frac ps else Cart ps)
             (if sd then Some ds else None), st).

Definition assemble (h : Head) (vel : option Coords) : RawPoscar :=
  mkPoscar (h_comment h) (h_scale h) (h_lattice h) (h_symbols h) (h_counts h)
           (h_positions h) vel (h_dynamics h).

(** [_from_reader] up to the [RawPoscar] literal (parse.rs, 402-670). *)
Definition parse_raw (st : Lines) : res RawPoscar :=
  '(h, st) <- parse_head st ;;
  '(vel, st) <- velocities_block (h_n h) st ;;
  _ <- expect_blank_until_eof st ;;
  Ok (assemble h vel).

(** Modelled from the spec: [RawPoscar::validate] (lib.rs, not in the
    sources here).  It re-checks the invariants of the data model: a
    comment of one line (no LF, no CR: the writer asserts both), a
    symbols list as long as the counts and made of valid symbols (parse.rs
    says [is_valid_symbol_for_symbol_line] is used by [validate]), [n] the
    [usize] sum of the counts with [n >= 1], and positions, dynamics and
    velocities of length [n]. *)
Definition validate (r : RawPoscar) : bool :=
  let n := match usize_sum (group_counts r) with Ok n => Some n | _ => None end in
  negb (existsb (fun c => (c =? 10) || (c =? 13)) (comment r))
  && match group_symbols r with
     | Some s => Nat.eqb (length s) (length (group_counts r))
                 && forallb is_valid_symbol_for_symbol_line s
     | None => true
     end
  && match n with
     | Some n =>
         negb (n =? 0)
         && (N.of_nat (length (coords_raw (positions r))) =? n)
         && match dynamics r with Some d => N.of_nat (length d) =? n | None => true end
         && match velocities r with
            | Some v => N.of_nat (length (coords_raw v)) =? n
            | None => true
            end
     | None => false
     end.

(** [validate().expect(..)] *)
Definition validated (r : RawPoscar) : res RawPoscar :=
  if validate r then Ok r
  else Panic "an invariant was not checked during parsing (this is a bug!)".

(** [_from_reader] on the lines of the input. *)
Definition from_lines (ls : list str) : res RawPoscar :=
  r <- parse_raw (mkLines 0 ls) ;; validated r.

(** ** [BufRead::lines] *)

(** A line without its ['\n'] loses one trailing ['\r']; [acc] holds the
    current line in reverse. *)
Fixpoint lines_go (s : str) (acc : str) : list str :=
  match s with
  | [] => match acc with [] => [] | _ => [rev acc] end
  | c :: s' =>
      if c =? 10 then
        (match acc with 13 :: acc' => rev acc' | _ => rev acc end) :: lines_go s' []
      else lines_go s' (c :: acc)
  end.

Definition lines_of (s : str) : list str := lines_go s [].

(** [Poscar::from_reader] on a text. *)
Definition from_reader (s : str) : res RawPoscar := from_lines (lines_of s).

(** ** [to_writer] (write.rs) *)

(** [format!("{:>2}", s)]: right-aligned, padded with spaces to 2 chars. *)
Definition pad2 (s : str) : str := repeat 32 (2 - length s) ++ s.

(** [write_sep(w, " ", xs)] *)
Definition write_sep (xs : list str) : str :=
  match xs with
  | [] => []
  | x :: xs' => x ++ concat (map (fun y => 32 :: y) xs')
  end.

(** [By3(arr, f)] *)
Definition by3 {A} (f : A -> str) (a : A * A * A) : str :=
  let '(x, y, z) := a in f x ++ [32] ++ f y ++ [32] ++ f z.

Definition fmt_flag (b : bool) : str := if b then [84] else [70].

(** The position lines; [dynamics[i]] panics out of range. *)
Fixpoint write_positions (i : nat) (ps : list v3) (dyn : option (list (bool * bool * bool)))
  : res (list str) :=
  match ps with
  | [] => Ok []
  | c :: ps' =>
      line <- match dyn with
              | None => Ok ([32; 32] ++ by3 dtoa c)
              | Some d =>
                  match nth_error d i with
                  | Some b => Ok ([32; 32] ++ by3 dtoa c ++ [32] ++ by3 fmt_flag b)
                  | None => Panic "index out of bounds"
                  end
              end ;;
      rest <- write_positions (S i) ps' dyn ;;
      Ok (line :: rest)
  end.

(** [to_writer], as the list of the lines it writes (each followed by
    ['\n'] in the text). *)
Definition write_lines (p : RawPoscar) : res (list str) :=
  if existsb (fun c => c =? 10) (comment p) then Panic "BUG" else
  if existsb (fun c => c =? 13) (comment p) then Panic "BUG" else
  let scale_line := match scale p with
                    | Factor x => [32; 32] ++ dtoa x
                    | Volume x => [32; 32; 45] ++ dtoa x
                    end in
  let '(a, b, c) := lattice_vectors p in
  let lattice := map (fun r => [32; 32; 32; 32] ++ by3 dtoa r) [a; b; c] in
  let symbols := match group_symbols p with
                 | Some s => [[32; 32] ++ write_sep (map pad2 s)]
                 | None => []
                 end in
  match group_counts p with
  | [] => Panic "BUG"
  | counts =>
      let counts_line := [32; 32] ++ write_sep (map (fun c => pad2 (show_N c)) counts) in
      let sd := match dynamics p with Some _ => [s2l "Selective Dynamics"] | None => [] end in
      let header := match positions p with
                    | Cart _ => s2l "Cartesian"
                    | Frac _ => s2l "Direct"
                    end in
      ps <- write_positions 0 (coords_raw (positions p)) (dynamics p) ;;
      let vel := match velocities p with
                 | Some v =>
                     (match v with Cart _ => s2l "Cartesian" | Frac _ => [] end)
                     :: map (fun x => [32; 32] ++ by3 dtoa x) (coords_raw v)
                 | None => []
                 end in
      Ok ([comment p; scale_line] ++ lattice ++ symbols ++ [counts_line] ++ sd
          ++ [header] ++ ps ++ vel)
  end.

Definition write_text (p : RawPoscar) : res str :=
  ls <- write_lines p ;; Ok (concat (map (fun l => l ++ [10]) ls)).

(** ** Statements *)

(** A line that is empty or made of whitespace. *)
Definition is_blank (s : str) : bool := forallb is_whitespace s.

(** The letter of a Fortran logical, as the spec describes it. *)
Definition logical_letter (c : char) : option bool :=
  if (c =? 116) || (c =? 84) then Some true
  else if (c =? 102) || (c =? 70) then Some false
  else None.

(** The length invariants of a document, with the mathematical sum of
    the counts. *)
Definition length_invariants (r : RawPoscar) : Prop :=
  let n := sumN (group_counts r) in
  1 <= n
  /\ N.of_nat (length (coords_raw (positions r))) = n
  /\ (forall d, dynamics r = Some d -> N.of_nat (length d) = n)
  /\ (forall v, velocities r = Some v -> N.of_nat (length (coords_raw v)) = n)
  /\ (forall s, group_symbols r = Some s -> length s = length (group_counts r)).

(** The texts of the words of a line, without their columns: the same
    loop as [words_go]. *)
Fixpoint toks_go (s : str) (acc : option str) : list str :=
  match s with
  | [] => match acc with None => [] | Some w => [rev w] end
  | c :: s' =>
      if is_ascii_whitespace c then
        match acc with
        | None => toks_go s' None
        | Some w => rev w :: toks_go s' None
        end
      else toks_go s' (Some (match acc with None => [c] | Some w => c :: w end))
  end.

(** A text without ASCII whitespace. *)
Definition ntok (s : str) : bool := forallb (fun c => negb (is_ascii_whitespace c)) s.

(** A line [BufRead::lines] gives back unchanged: no LF, no CR. *)
Definition line_clean (l : str) : bool := forallb (fun c => negb (c =? 10) && negb (c =? 13)) l.

(** The first char of a text that is not whitespace. *)
Definition first_nonws (s : str) : option char :=
  hd_error (filter (fun c => negb (is_whitespace c)) s).

(** What [_from_reader] guarantees about the scale: a factor is positive,
    a volume is the negation of a negative number. *)
Definition scale_ok (s : ScaleLine) : Prop :=
  match s with
  | Factor x => fcmp x = Some Gt
  | Volume x => exists v, x = fneg v /\ fcmp v = Some Lt
  end.

(** What [_from_reader] guarantees about the symbols: the first char of
    the line that is not whitespace is not a digit. *)
Definition symbols_ok (s : option (list str)) : Prop :=
  match s with
  | Some s => exists c, first_nonws (concat s) = Some c /\ is_digit c = false
  | None => True
  end.

(** The lines [to_writer] writes, piece by piece. *)
Definition scale_text (s : ScaleLine) : str :=
  match s with
  | Factor x => [32; 32] ++ dtoa x
  | Volume x => [32; 32; 45] ++ dtoa x
  end.

Definition lattice_text (a : v3) : str := [32; 32; 32; 32] ++ by3 dtoa a.

Definition symbols_text (s : list str) : str := [32; 32] ++ write_sep (map pad2 s).

Definition counts_text (cn : list N) : str :=
  [32; 32] ++ write_sep (map (fun c => pad2 (show_N c)) cn).

Definition symbols_lines (sy : option (list str)) : list str :=
  match sy with Some s => [symbols_text s] | None => [] end.

Definition sd_lines (dyn : option (list (bool * bool * bool))) : list str :=
  match dyn with Some _ => [s2l "Selective Dynamics"] | None => [] end.

Definition header_text (c : Coords) : str :=
  match c with Cart _ => s2l "Cartesian" | Frac _ => s2l "Direct" end.

Definition position_texts (ps : list v3) (dyn : option (list (bool * bool * bool))) : list str :=
  match dyn with
  | None => map (fun c => [32; 32] ++ by3 dtoa c) ps
  | Some d => map (fun '(c, b) => [32; 32] ++ by3 dtoa c ++ [32] ++ by3 fmt_flag b) (combine ps d)
  end.

Definition vel_text (v : Coords) : list str :=
  (match v with Cart _ => s2l "Cartesian" | Frac _ => [] end)
  :: map (fun x => [32; 32] ++ by3 dtoa x) (coords_raw v).

Definition velocity_texts (vel : option Coords) : list str :=
  match vel with Some v => vel_text v | None => [] end.

Definition head_texts (p : RawPoscar) : list str :=
  let '(a, b, c) := lattice_vectors p in
  [comment p; scale_text (scale p); lattice_text a; lattice_text b; lattice_text c]
  ++ symbols_lines (group_symbols p) ++ [counts_text (group_counts p)]
  ++ sd_lines (dynamics p) ++ [header_text (positions p)]
  ++ position_texts (coords_raw (positions p)) (dynamics p).

(** The part of a document read before the velocities. *)
Definition head_of (p : RawPoscar) : Head :=
  mkHead (comment p) (scale p) (lattice_vectors p) (group_symbols p) (group_counts p)
         (sumN (group_counts p)) (positions p) (dynamics p).

(** *** Helpers for the further properties *)

(** [pre] is empty or ends with ASCII whitespace. *)
Definition ws_before (pre : str) : bool :=
  match rev pre with [] => true | c :: _ => is_ascii_whitespace c end.

(** [post] is empty or starts with ASCII whitespace. *)
Definition ws_after (post : str) : bool :=
  match post with [] => true | c :: _ => is_ascii_whitespace c end.

(** The class [classify_coord_line] gives from the first char of a line. *)
Definition class_of_first (c : char) : CoordLineType :=
  if (c =? 99) || (c =? 67) || (c =? 107) || (c =? 75) then Cartesian
  else if (c =? 100) || (c =? 68) then Direct
  else if is_ascii_whitespace c then IndentedText
  else SuspiciouslyDirect.

(** Whether a line starts with one of the chars [cs]. *)
Definition starts_with_one_of (cs : list char) (l : str) : bool :=
  match l with c :: _ => existsb (N.eqb c) cs | [] => false end.

(** The value of a string of decimal digits. *)
Definition dec_value (s : str) : N := fold_left (fun a c => a * 10 + (c - 48)) s 0.

(** No LF in a line. *)
Definition no_lf (l : str) : bool := forallb (fun c => negb (c =? 10)) l.

(** The last char of a line is not a CR. *)
Definition no_final_cr (l : str) : bool :=
  match rev l with 13 :: _ => false | _ => true end.

(** A text made of lines, each ended by [term]. *)
Definition text_of (term : str) (ls : list str) : str := concat (map (fun l => l ++ term) ls).

(** A step that reads lines keeps its place in the input: on success no
    line is skipped or added, and an "unexpected end of file" error it
    returns is at the end of the input, with no column. *)
Definition eof_at_end {A} (st : Lines) (m : res (A * Lines)) : Prop :=
  match m with
  | Ok (_, st') => (cur st' + length (rest st') = cur st + length (rest st))%nat
  | Err e => kind e = Generic "unexpected end of file" ->
             eline e = Some (cur st + length (rest st))%nat /\ ecol e = None
  | Panic _ => True
  end.

(** A step that never returns an "unexpected end of file" error. *)
Definition no_eof_err {A} (m : res A) : Prop :=
  forall e, m = Err e -> kind e <> Generic "unexpected end of file".

(** ** Proofs *)

(** Take apart [bind] chains that returned [Ok]. *)
Ltac split_ok :=
  repeat match goal with
  | H : bind ?m _ = Ok _ |- _ =>
      let E := fresh "E" in
      destruct m eqn:E; simpl in H; [|discriminate H|discriminate H]
  | p : prod _ _ |- _ => destruct p; simpl in *
  | H : Ok _ = Ok _ |- _ => injection H; clear H; intros; subst
  end.

Lemma trim_start_nil_iff (s : str) : trim_start s = [] <-> is_blank s = true.
Proof.
  induction s as [|c s IH]; simpl; [tauto|].
  destruct (is_whitespace c); simpl; [exact IH|].
  split; discriminate.
Qed.

Lemma is_blank_app (s t : str) : is_blank (s ++ t) = is_blank s && is_blank t.
Proof. unfold is_blank. apply forallb_app. Qed.

Lemma is_blank_rev (s : str) : is_blank (rev s) = is_blank s.
Proof.
  induction s as [|c s IH]; simpl; [reflexivity|].
  rewrite is_blank_app, IH. simpl. rewrite andb_true_r, andb_comm. reflexivity.
Qed.

Lemma trim_end_nil_iff (s : str) : trim_end s = [] <-> is_blank s = true.
Proof.
  unfold trim_end. rewrite <- is_blank_rev, <- trim_start_nil_iff.
  split; intro H; [|rewrite H; reflexivity].
  destruct (trim_start (rev s)) eqn:E; [reflexivity|].
  apply (f_equal (@length N)) in H. rewrite length_rev in H. simpl in H. discriminate.
Qed.

Lemma trim_start_head (s : str) :
  match trim_start s with [] => True | c :: _ => is_whitespace c = false end.
Proof.
  induction s as [|c s IH]; simpl; [exact I|].
  destruct (is_whitespace c) eqn:E; [exact IH|exact E].
Qed.

Lemma trim_nil_iff (s : str) : trim s = [] <-> is_blank s = true.
Proof.
  unfold trim. rewrite (trim_end_nil_iff (trim_start s)).
  rewrite <- (trim_start_nil_iff s).
  pose proof (trim_start_head s) as Hh.
  destruct (trim_start s) as [|c t]; simpl; [split; reflexivity|].
  rewrite Hh. simpl. split; discriminate.
Qed.

Lemma classify_blank (s : str) :
  classify_coord_line s = EmptyOrWhitespace <-> is_blank s = true.
Proof.
  rewrite <- trim_end_nil_iff. unfold classify_coord_line.
  destruct (trim_end s) as [|c t]; [tauto|].
  split; [|discriminate].
  destruct ((c =? 99) || (c =? 67) || (c =? 107) || (c =? 75)); [discriminate|].
  destruct ((c =? 100) || (c =? 68)); [discriminate|].
  destruct (is_ascii_whitespace c); discriminate.
Qed.

(** [expect_blank_until_eof] with enough fuel stops at the first line
    holding a word. *)
Lemma expect_blank_go_first_word (pre post : list str) (l : str) (o : nat) (t : str)
    (ws : list (nat * str)) (fuel : nat) (c : nat) :
  Forall (fun p => words_go p 0 None = []) pre ->
  words_go l 0 None = (o, t) :: ws ->
  (length pre < fuel)%nat ->
  expect_blank_go fuel (mkLines c (pre ++ l :: post))
  = Err (mkErr (Generic "expected end of file") (Some (c + length pre)%nat) (Some o)).
Proof.
  intros Hpre Hl. revert fuel c.
  induction Hpre as [|p pre Hp Hpre IH]; intros fuel c Hf;
    (destruct fuel as [|fuel]; [simpl in Hf; lia|]).
  - simpl. unfold words. simpl. rewrite Hl. simpl. rewrite Nat.add_0_r. reflexivity.
  - simpl. unfold words at 1. simpl. rewrite Hp. simpl.
    rewrite IH by (simpl in Hf; lia). do 3 f_equal. lia.
Qed.

Lemma expect_blank_first_word (pre post : list str) (l : str) (o : nat) (t : str)
    (ws : list (nat * str)) (c : nat) :
  Forall (fun p => words_go p 0 None = []) pre ->
  words_go l 0 None = (o, t) :: ws ->
  expect_blank_until_eof (mkLines c (pre ++ l :: post))
  = Err (mkErr (Generic "expected end of file") (Some (c + length pre)%nat) (Some o)).
Proof.
  intros Hpre Hl. unfold expect_blank_until_eof.
  apply expect_blank_go_first_word with (t := t) (ws := ws); auto.
  simpl. rewrite length_app. simpl. lia.
Qed.

Lemma expect_blank_nil (c : nat) : expect_blank_until_eof (mkLines c []) = Ok (mkLines c []).
Proof. reflexivity. Qed.

Lemma usize_sum_go_ok (xs : list N) (acc n : N) :
  usize_sum_go xs acc = Ok n -> n = acc + sumN xs.
Proof.
  revert acc. induction xs as [|x xs IH]; intros acc H; simpl in *.
  - injection H as <-. lia.
  - destruct (acc + x <? u64_bound); [|discriminate].
    apply IH in H. lia.
Qed.

Lemma usize_sum_go_small (xs : list N) (acc : N) :
  acc + sumN xs < u64_bound -> usize_sum_go xs acc = Ok (acc + sumN xs).
Proof.
  revert acc. induction xs as [|x xs IH]; intros acc H; simpl in *.
  - f_equal. lia.
  - assert (E : (acc + x <? u64_bound) = true) by (apply N.ltb_lt; lia).
    rewrite E, IH by lia. f_equal. lia.
Qed.

Lemma usize_sum_ok (xs : list N) (n : N) : usize_sum xs = Ok n -> n = sumN xs.
Proof. intro H. apply usize_sum_go_ok in H. lia. Qed.

Lemma usize_sum_small (xs : list N) : sumN xs < u64_bound -> usize_sum xs = Ok (sumN xs).
Proof. intro H. unfold usize_sum. rewrite usize_sum_go_small by lia. reflexivity. Qed.

(** C7: a Fortran logical is an optional ['.'] followed by a letter of
    [tT] (true) or [fF] (false), the rest being ignored; anything else,
    the empty remainder included, fails.  [".T"], ["T"], [".TRUE."] and
    ["t"] give true, [".F"] and ["F"] give false, ["X"] fails. *)
Theorem logical_from_str_grammar :
  (forall (s : str) (b : bool),
     logical_from_str s = Some b <->
     exists pre c rest, (pre = [] \/ pre = [46]) /\ s = pre ++ (c :: rest)
                        /\ logical_letter c = Some b)
  /\ logical_from_str (s2l ".T") = Some true /\ logical_from_str (s2l "T") = Some true
  /\ logical_from_str (s2l ".TRUE.") = Some true /\ logical_from_str (s2l "t") = Some true
  /\ logical_from_str (s2l ".F") = Some false /\ logical_from_str (s2l "F") = Some false
  /\ logical_from_str (s2l "X") = None.
Proof.
  split; [|repeat split; reflexivity].
  intros s b. unfold logical_from_str. fold (logical_letter).
  destruct s as [|c s].
  - split; [discriminate|]. intros (pre & c & rest & _ & H & _). destruct pre; discriminate.
  - destruct (N.eqb_spec c 46) as [->|Hc].
    + split.
      * destruct s as [|c' rest]; [discriminate|]. intro H. exists [46], c', rest. auto.
      * intros (pre & c' & rest & [->| ->] & Heq & Hb); simpl in Heq;
          injection Heq; intros; subst.
        -- discriminate Hb.
        -- exact Hb.
    + split.
      * intro H. exists [], c, s. auto.
      * intros (pre & c' & rest & [->| ->] & Heq & Hb); simpl in Heq;
          injection Heq; intros; subst; [exact Hb|congruence].
Qed.

(** C8: [Unsigned] is [u64]'s grammar except that an input starting with
    ['+'] is refused: ["5"] gives 5, ["+5"] fails although [u64] itself
    accepts it. *)
Theorem unsigned_from_str_grammar :
  (forall s : str,
     unsigned_from_str s = match hd_error s with Some 43 => None | _ => u64_from_str s end)
  /\ unsigned_from_str (s2l "5") = Some 5 /\ unsigned_from_str (s2l "+5") = None
  /\ u64_from_str (s2l "+5") = Some 5.
Proof.
  split; [|repeat split; reflexivity].
  intro s; destruct s as [|c s]; reflexivity.
Qed.

(** C5: the first word of the scale line is read as a float [v]: [v < 0]
    gives [Volume (-v)] (its absolute value), [v > 0] gives [Factor v],
    zero or NaN is an error at that word; when [v] was accepted, a second
    word that also reads as a float is a "too many floats" error at that
    word, and a second word that does not is ignored as a comment. *)
Theorem scale_line_semantics (line w : Spanned) (ws : list Spanned) (v : F) :
  words line = w :: ws -> parse_f64 (stext w) = Some v ->
  scale_of_line line =
    match fcmp v with
    | Some Eq => Err (span_error w (Generic "scale cannot be zero"))
    | None => Err (span_error w (Generic "scale cannot be nan"))
    | Some c =>
        let sc := match c with Lt => Volume (fneg v) | _ => Factor v end in
        match ws with
        | w2 :: _ =>
            match parse_f64 (stext w2) with
            | Some _ => Err (span_error w2 (Generic "too many floats on scale line (expected just one)"))
            | None => Ok sc
            end
        | [] => Ok sc
        end
    end.
Proof.
  intros Hw Hv. unfold scale_of_line. rewrite Hw. simpl.
  unfold parse_float. rewrite Hv. simpl.
  destruct (fcmp v) as [[| |]|]; simpl; reflexivity.
Qed.

(** C6 (amended): with a symbols line, a number of symbols different
    from the number of counts read is an "Inconsistent number of counts"
    error; when that check passes (no symbols line, or as many symbols as
    counts), counts summing to zero are a "There must be at least one
    atom." error; "Si Si" over "1 1" gives the symbols [Si; Si], the
    counts [1; 1] and [n = 2]. *)
Theorem counts_block_errors (line cl : Spanned) (st st' : Lines) (syms : option (list str)) :
  symbols_stage line st = Ok (syms, cl, st') ->
  (forall s, syms = Some s -> length s <> length (take_counts (words cl)) ->
     counts_block line st = Err (span_error cl (Generic "Inconsistent number of counts")))
  /\ ((forall s, syms = Some s -> length s = length (take_counts (words cl))) ->
      sumN (take_counts (words cl)) = 0 ->
      counts_block line st = Err (span_error cl (Generic "There must be at least one atom.")))
  /\ counts_block (mkSpanned 5 0 (s2l "Si Si")) (mkLines 6 [s2l "1 1"])
     = Ok (Some [s2l "Si"; s2l "Si"], [1; 1], 2, mkLines 7 []).
Proof.
  intro Hs. unfold counts_block. rewrite Hs. simpl.
  split; [|split; [|reflexivity]].
  - intros s -> Hne. simpl. apply Nat.eqb_neq in Hne. rewrite Hne. reflexivity.
  - intros Hlen Hz.
    assert (Hc : match syms with
                 | Some s => if Nat.eqb (length s) (length (take_counts (words cl))) then Ok tt
                             else Err (span_error cl (Generic "Inconsistent number of counts"))
                 | None => Ok tt
                 end = Ok tt).
    { destruct syms as [s|]; [|reflexivity].
      rewrite (proj2 (Nat.eqb_eq _ _) (Hlen s eq_refl)). reflexivity. }
    rewrite Hc. simpl. rewrite usize_sum_small by (rewrite Hz; reflexivity).
    rewrite Hz. reflexivity.
Qed.

(** C3: after the position lines, a line that is not blank followed by
    the end of the input is an "unexpected end of file" error. *)
Theorem eof_after_velocity_control_line (L : list str) (h : Head) (st : Lines) (l : str) :
  parse_head (mkLines 0 L) = Ok (h, st) -> rest st = [l] ->
  classify_coord_line l <> EmptyOrWhitespace ->
  from_lines L = Err (mkErr (Generic "unexpected end of file") (Some (S (cur st))) None).
Proof.
  intros Hh Hr Hc. unfold from_lines, parse_raw. rewrite Hh. simpl.
  destruct st as [c r]. simpl in Hr. subst r.
  unfold velocities_block. simpl.
  destruct (classify_coord_line l); try congruence; reflexivity.
Qed.

(** C2: after the position lines, the end of the input, or one blank
    line and the end of the input, give a document without velocities;
    after two blank lines, the first later line holding a word is an
    "expected end of file" error at that word. *)
Theorem no_velocities_at_end (L : list str) (h : Head) (st : Lines) :
  parse_head (mkLines 0 L) = Ok (h, st) ->
  (rest st = [] -> from_lines L = validated (assemble h None))
  /\ (forall b, rest st = [b] -> is_blank b = true ->
        from_lines L = validated (assemble h None))
  /\ (forall b1 b2 pre l post o t ws,
        rest st = b1 :: b2 :: pre ++ l :: post ->
        is_blank b1 = true -> is_blank b2 = true ->
        Forall (fun p => words_go p 0 None = []) pre ->
        words_go l 0 None = (o, t) :: ws ->
        from_lines L = Err (mkErr (Generic "expected end of file")
                                  (Some (cur st + 2 + length pre)%nat) (Some o))).
Proof.
  intros Hh. unfold from_lines, parse_raw. rewrite Hh. simpl.
  destruct st as [c r]. simpl. unfold velocities_block, next at 1. simpl.
  split; [|split].
  - intros ->. reflexivity.
  - intros b -> Hb. simpl.
    rewrite (proj2 (classify_blank b) Hb). reflexivity.
  - intros b1 b2 pre l post o t ws -> Hb1 Hb2 Hpre Hl. simpl.
    rewrite (proj2 (classify_blank b1) Hb1), (proj2 (trim_nil_iff b2) Hb2).
    cbn -[expect_blank_until_eof].
    rewrite (expect_blank_first_word pre post l o t ws) by auto.
    simpl. do 3 f_equal. lia.
Qed.

(** C10: after the position lines, a blank line followed by a line that
    is not blank starts a velocity block, read as direct coordinates
    whatever the second line holds. *)
Theorem blank_control_line_means_direct (L : list str) (h : Head) (st : Lines)
    (b l2 : str) (more : list str) :
  parse_head (mkLines 0 L) = Ok (h, st) -> rest st = b :: l2 :: more ->
  is_blank b = true -> is_blank l2 = false ->
  match velocities_block (h_n h) st with
  | Ok (v, _) => exists vs, v = Some (Frac vs)
  | _ => True
  end
  /\ (forall D, from_lines L = Ok D -> exists vs, velocities D = Some (Frac vs)).
Proof.
  intros Hh Hr Hb Hl2.
  assert (Hv : match velocities_block (h_n h) st with
               | Ok (v, _) => exists vs, v = Some (Frac vs)
               | _ => True
               end).
  { destruct st as [c r]. simpl in Hr. subst r.
    unfold velocities_block. simpl.
    rewrite (proj2 (classify_blank b) Hb).
    destruct (trim l2) as [|x t] eqn:Et.
    { apply trim_nil_iff in Et. congruence. }
    destruct (h_n h =? 0); [exact I|].
    destruct (read3 _ _ _) as [[v0 ?]| |]; simpl; [|exact I|exact I].
    destruct (velocity_lines _ _) as [[vs ?]| |]; simpl; [|exact I|exact I].
    eexists. reflexivity. }
  split; [exact Hv|].
  intros D HD. unfold from_lines, parse_raw in HD. rewrite Hh in HD. simpl in HD.
  destruct (velocities_block (h_n h) st) as [[v st2]| |]; simpl in HD; try discriminate.
  destruct Hv as [vs ->].
  destruct (expect_blank_until_eof st2); simpl in HD; try discriminate.
  unfold validated in HD. destruct (validate _); [|discriminate].
  injection HD as <-. exists vs. reflexivity.
Qed.

Lemma position_line_flags (sd : bool) (line : Spanned) (p : v3) (d : option (bool * bool * bool)) :
  position_line sd line = Ok (p, d) -> sd = true -> exists b, d = Some b.
Proof.
  intros H ->. unfold position_line in H. split_ok. eexists. reflexivity.
Qed.

Lemma position_lines_length (k : nat) (sd : bool) (st st' : Lines) ps ds :
  position_lines k sd st = Ok (ps, ds, st') ->
  length ps = k /\ (sd = true -> length ds = k).
Proof.
  revert st ps ds st'. induction k as [|k IH]; intros st ps ds st' H; simpl in H.
  - injection H; intros; subst. auto.
  - split_ok. destruct (IH _ _ _ _ E1) as [L1 L2]. simpl. split; [lia|].
    intro Hsd. destruct (position_line_flags _ _ _ _ E0 Hsd) as [b ->]. simpl. auto.
Qed.

Lemma velocity_lines_length (k : nat) (st st' : Lines) vs :
  velocity_lines k st = Ok (vs, st') -> length vs = k.
Proof.
  revert st vs st'. induction k as [|k IH]; intros st vs st' H; simpl in H.
  - injection H; intros; subst. reflexivity.
  - split_ok. simpl. f_equal. eapply IH; eassumption.
Qed.

Lemma velocities_block_length (n : N) (st st' : Lines) (v : Coords) :
  velocities_block n st = Ok (Some v, st') -> N.of_nat (length (coords_raw v)) = n.
Proof.
  unfold velocities_block. intro H.
  destruct (next st) as [[line st1]| |]; try discriminate.
  destruct (classify_coord_line (stext line)); simpl in H;
    (destruct (next st1) as [[line2 st2]| |]; try discriminate);
    try (destruct (trim (stext line2)); simpl in H);
    try (split_ok; discriminate);
    (destruct (n =? 0) eqn:En; [discriminate|]; apply N.eqb_neq in En;
     split_ok; apply velocity_lines_length in E0; simpl; rewrite E0; lia).
Qed.

Lemma counts_block_ok (line : Spanned) (st st' : Lines) syms counts (n : N) :
  counts_block line st = Ok (syms, counts, n, st') ->
  n = sumN counts /\ n <> 0 /\ (forall s, syms = Some s -> length s = length counts).
Proof.
  unfold counts_block. intro H. split_ok.
  match type of H with
  | (if ?m =? 0 then _ else _) = _ =>
      destruct (m =? 0) eqn:Ez; [discriminate|]; apply N.eqb_neq in Ez
  end.
  injection H; intros; subst.
  match goal with U : usize_sum _ = Ok _ |- _ => apply usize_sum_ok in U; subst end.
  split; [reflexivity|split; [assumption|]].
  intros syms' ->.
  match goal with
  | C : (if Nat.eqb ?a ?b then _ else _) = _ |- _ =>
      destruct (Nat.eqb_spec a b); [assumption|discriminate]
  end.
Qed.

Lemma parse_head_ok (st st' : Lines) (h : Head) :
  parse_head st = Ok (h, st') ->
  h_n h = sumN (h_counts h) /\ h_n h <> 0
  /\ N.of_nat (length (coords_raw (h_positions h))) = h_n h
  /\ (forall d, h_dynamics h = Some d -> N.of_nat (length d) = h_n h)
  /\ (forall s, h_symbols h = Some s -> length s = length (h_counts h)).
Proof.
  unfold parse_head. intro H. split_ok. simpl.
  destruct (counts_block_ok _ _ _ _ _ _ E6) as (Hn & Hz & Hs).
  destruct (position_lines_length _ _ _ _ _ _ E8) as [Lp Ld].
  repeat split; auto.
  - destruct b; simpl; rewrite Lp; lia.
  - intros d Hd. destruct b0; [|discriminate]. injection Hd as <-.
    rewrite Ld by reflexivity. lia.
Qed.

(** C4: a document read by [_from_reader] (before [validate]) has
    [n = sum(counts) >= 1] and [n] positions, and [n] dynamics flags, [n]
    velocities and as many symbols as counts when those are present. *)
Theorem parse_raw_invariants (st : Lines) (r : RawPoscar) :
  parse_raw st = Ok r -> length_invariants r.
Proof.
  unfold parse_raw. intro H. split_ok.
  destruct (parse_head_ok _ _ _ E) as (Hn & Hz & Hp & Hd & Hs).
  unfold length_invariants, assemble. simpl. rewrite <- Hn.
  repeat split; auto; [lia|].
  intros v ->. eapply velocities_block_length; eassumption.
Qed.

Lemma existsb_orb {A} (f g : A -> bool) (l : list A) :
  existsb (fun c => f c || g c) l = existsb f l || existsb g l.
Proof.
  induction l as [|x l IH]; simpl; [reflexivity|].
  rewrite IH. destruct (f x), (g x), (existsb f l), (existsb g l); reflexivity.
Qed.

Lemma write_positions_none (i : nat) (ps : list v3) :
  write_positions i ps None = Ok (map (fun c => [32; 32] ++ by3 dtoa c) ps).
Proof.
  revert i. induction ps as [|c ps IH]; intro i; simpl; [reflexivity|].
  rewrite IH. reflexivity.
Qed.

Lemma write_positions_some (i : nat) (ps : list v3) (d : list (bool * bool * bool)) :
  (i + length ps <= length d)%nat ->
  write_positions i ps (Some d)
  = Ok (map (fun '(c, b) => [32; 32] ++ by3 dtoa c ++ [32] ++ by3 fmt_flag b)
            (combine ps (skipn i d))).
Proof.
  revert i. induction ps as [|c ps IH]; intros i Hi; simpl; [reflexivity|].
  simpl in Hi.
  destruct (nth_error d i) as [b|] eqn:Eb.
  2:{ apply nth_error_None in Eb. lia. }
  destruct (skipn i d) as [|b' d'] eqn:Es.
  { apply (f_equal (@length _)) in Es. rewrite length_skipn in Es. simpl in Es. lia. }
  assert (b' = b).
  { pose proof (nth_error_skipn i d 0) as Hn. rewrite Es, Nat.add_0_r, Eb in Hn.
    simpl in Hn. congruence. }
  subst b'.
  assert (Hs : skipn (S i) d = d').
  { rewrite <- (skipn_skipn 1 i), Es. reflexivity. }
  rewrite IH, Hs by lia. reflexivity.
Qed.

(** C9: for a document satisfying the invariants, the writer does not
    panic: the assertions on the comment and on the counts hold and
    [dynamics[i]] is in range; it produces its lines. *)
Theorem to_writer_total (r : RawPoscar) :
  validate r = true -> exists ls, write_lines r = Ok ls.
Proof.
  unfold validate, write_lines. intro H.
  apply andb_prop in H as [H Hn]. apply andb_prop in H as [Hc _].
  rewrite existsb_orb in Hc. apply negb_true_iff, orb_false_elim in Hc as [Hc10 Hc13].
  rewrite Hc10, Hc13.
  destruct (lattice_vectors r) as [[a b] c].
  destruct (usize_sum (group_counts r)) as [n| |] eqn:Es; [|discriminate|discriminate].
  apply andb_prop in Hn as [Hn Hv]. apply andb_prop in Hn as [Hn Hd].
  apply andb_prop in Hn as [Hz Hp].
  apply usize_sum_ok in Es.
  destruct (group_counts r) as [|c0 cs] eqn:Ec.
  { simpl in Es. subst n. discriminate. }
  destruct (dynamics r) as [d|] eqn:Edyn.
  - rewrite write_positions_some.
    + eexists. reflexivity.
    + apply N.eqb_eq in Hp, Hd. simpl. lia.
  - rewrite write_positions_none. eexists. reflexivity.
Qed.

(** *** Reading back what the writer wrote *)

Lemma ascii_ws_ws (c : N) : is_ascii_whitespace c = true -> is_whitespace c = true.
Proof.
  unfold is_ascii_whitespace. intro H.
  repeat (apply orb_true_iff in H as [H|H]); apply N.eqb_eq in H; subst c; reflexivity.
Qed.

Lemma digit_not_ws (c : N) : is_digit c = true -> is_whitespace c = false.
Proof.
  unfold is_digit. intro H. apply andb_prop in H as [H1 H2].
  apply N.leb_le in H1, H2.
  assert (c = 48 \/ c = 49 \/ c = 50 \/ c = 51 \/ c = 52 \/ c = 53 \/ c = 54
          \/ c = 55 \/ c = 56 \/ c = 57) as Hc by lia.
  repeat destruct Hc as [Hc|Hc]; subst c; reflexivity.
Qed.

Lemma nonws_ntok (s : str) :
  forallb (fun c => negb (is_whitespace c)) s = true -> ntok s = true.
Proof.
  unfold ntok. rewrite !forallb_forall. intros H c Hc.
  specialize (H c Hc). destruct (is_ascii_whitespace c) eqn:E; [|reflexivity].
  rewrite (ascii_ws_ws c E) in H. discriminate.
Qed.

Lemma ntok_clean (s : str) : ntok s = true -> line_clean s = true.
Proof.
  unfold ntok, line_clean. rewrite !forallb_forall. intros H c Hc.
  specialize (H c Hc). unfold is_ascii_whitespace in H.
  destruct (c =? 10), (c =? 13); simpl in *; rewrite ?orb_true_r in H; easy.
Qed.

Lemma line_clean_app (s t : str) : line_clean (s ++ t) = line_clean s && line_clean t.
Proof. apply forallb_app. Qed.

Lemma ntok_app (s t : str) : ntok (s ++ t) = ntok s && ntok t.
Proof. apply forallb_app. Qed.

(** The column-free view of [words]. *)
Lemma words_go_toks (s : str) (off : nat) (acc : option (nat * str)) :
  map snd (words_go s off acc) = toks_go s (option_map snd acc).
Proof.
  revert off acc. induction s as [|c s IH]; intros off acc.
  - destruct acc as [[o w]|]; reflexivity.
  - simpl. destruct (is_ascii_whitespace c), acc as [[o w]|]; simpl; rewrite ?IH; reflexivity.
Qed.

Lemma words_texts (sp : Spanned) : map stext (words sp) = toks_go (stext sp) None.
Proof.
  unfold words. rewrite map_map, <- (words_go_toks _ 0 None).
  apply map_ext. intros [o w]. reflexivity.
Qed.

Lemma words_texts_at (i c : nat) (l : str) :
  map stext (words (mkSpanned i c l)) = toks_go l None.
Proof. apply words_texts. Qed.

Lemma toks_word (t r w : str) :
  ntok t = true -> toks_go (t ++ r) (Some w) = toks_go r (Some (rev t ++ w)).
Proof.
  revert w. induction t as [|c t IH]; intros w H; [reflexivity|].
  simpl in H. apply andb_prop in H as [Hc H]. apply negb_true_iff in Hc.
  simpl. rewrite Hc, IH by exact H. rewrite <- app_assoc. reflexivity.
Qed.

Lemma toks_word_sep (t r : str) (c : N) :
  t <> [] -> ntok t = true -> is_ascii_whitespace c = true ->
  toks_go (t ++ c :: r) None = t :: toks_go r None.
Proof.
  destruct t as [|c0 t]; intros Hne H Hc; [congruence|].
  simpl in H. apply andb_prop in H as [H0 H]. apply negb_true_iff in H0.
  simpl. rewrite H0, toks_word by exact H. simpl. rewrite Hc.
  rewrite rev_app_distr, rev_involutive. reflexivity.
Qed.

Lemma toks_word_end (t : str) : t <> [] -> ntok t = true -> toks_go t None = [t].
Proof.
  destruct t as [|c0 t]; intros Hne H; [congruence|].
  simpl in H. apply andb_prop in H as [H0 H]. apply negb_true_iff in H0.
  simpl. rewrite H0. rewrite <- (app_nil_r t) at 1. rewrite toks_word by exact H.
  simpl. rewrite rev_app_distr, rev_involutive. reflexivity.
Qed.

Lemma toks_spaces (k : nat) (r : str) : toks_go (repeat 32 k ++ r) None = toks_go r None.
Proof. induction k as [|k IH]; [reflexivity|exact IH]. Qed.

(** The words of the lines the writer builds. *)
Lemma toks_by3 {A} (f : A -> str) (a : A * A * A) (c : N) (r : str) :
  (forall x, f x <> [] /\ ntok (f x) = true) -> is_ascii_whitespace c = true ->
  toks_go (by3 f a ++ c :: r) None
  = let '(x, y, z) := a in f x :: f y :: f z :: toks_go r None.
Proof.
  intros Hf Hc. destruct a as [[x y] z]. unfold by3. rewrite <- !app_assoc. simpl.
  destruct (Hf x), (Hf y), (Hf z).
  rewrite !toks_word_sep by auto. reflexivity.
Qed.

Lemma toks_by3_end {A} (f : A -> str) (a : A * A * A) :
  (forall x, f x <> [] /\ ntok (f x) = true) ->
  toks_go (by3 f a) None = let '(x, y, z) := a in [f x; f y; f z].
Proof.
  intros Hf. destruct a as [[x y] z]. unfold by3. simpl.
  destruct (Hf x), (Hf y), (Hf z).
  rewrite !toks_word_sep, toks_word_end by auto. reflexivity.
Qed.

Lemma toks_pad2_seq (ts : list str) :
  Forall (fun t => t <> [] /\ ntok t = true) ts ->
  toks_go (concat (map (fun t => 32 :: pad2 t) ts)) None = ts.
Proof.
  induction 1 as [|t ts [Hne Ht] _ IH]; [reflexivity|].
  simpl. unfold pad2. rewrite <- app_assoc, toks_spaces.
  destruct ts as [|t' ts'].
  - simpl. rewrite app_nil_r. apply toks_word_end; assumption.
  - simpl in IH |- *. rewrite toks_word_sep by (auto; reflexivity). f_equal. exact IH.
Qed.

Lemma toks_pad2_line (ts : list str) :
  Forall (fun t => t <> [] /\ ntok t = true) ts ->
  toks_go ([32; 32] ++ write_sep (map pad2 ts)) None = ts.
Proof.
  intro H. rewrite <- (toks_pad2_seq ts H) at 2.
  destruct ts as [|t ts]; [reflexivity|].
  unfold write_sep. cbn [map]. rewrite map_map. reflexivity.
Qed.

(** The first char [trim] keeps. *)
Lemma trim_start_first (s : str) : hd_error (trim_start s) = first_nonws s.
Proof.
  unfold first_nonws. induction s as [|c s IH]; [reflexivity|].
  simpl. destruct (is_whitespace c); simpl; [exact IH|reflexivity].
Qed.

Lemma trim_start_snoc (u : str) (c : N) :
  is_whitespace c = false -> exists u', trim_start (u ++ [c]) = u' ++ [c].
Proof.
  intro Hc. induction u as [|a u IH].
  - exists []. simpl. rewrite Hc. reflexivity.
  - simpl. destruct (is_whitespace a); [exact IH|].
    exists (a :: u). reflexivity.
Qed.

Lemma trim_first (s : str) : hd_error (trim s) = first_nonws s.
Proof.
  rewrite <- trim_start_first. unfold trim.
  pose proof (trim_start_head s) as Hh.
  destruct (trim_start s) as [|c t]; [reflexivity|].
  unfold trim_end. change (rev (c :: t)) with (rev t ++ [c]).
  destruct (trim_start_snoc (rev t) c Hh) as [u' ->].
  rewrite rev_app_distr. reflexivity.
Qed.

Lemma first_nonws_app (s t : str) :
  first_nonws (s ++ t) = match first_nonws s with Some c => Some c | None => first_nonws t end.
Proof.
  unfold first_nonws. induction s as [|c s IH]; [reflexivity|].
  simpl. destruct (is_whitespace c); [exact IH|reflexivity].
Qed.

(** The words of a line hold all its chars that are not whitespace. *)
Lemma filter_toks (s : str) (acc : option str) :
  filter (fun c => negb (is_whitespace c)) (rev (match acc with Some w => w | None => [] end) ++ s)
  = filter (fun c => negb (is_whitespace c)) (concat (toks_go s acc)).
Proof.
  revert acc. induction s as [|c s IH]; intro acc.
  - destruct acc as [w|]; simpl; rewrite ?app_nil_r; reflexivity.
  - simpl. destruct (is_ascii_whitespace c) eqn:Ec.
    + pose proof (ascii_ws_ws c Ec) as Hw.
      destruct acc as [w|]; simpl.
      * rewrite !filter_app. f_equal. rewrite <- (IH None). simpl. rewrite Hw. reflexivity.
      * rewrite Hw. exact (IH None).
    + rewrite <- IH. destruct acc as [w|]; simpl; [rewrite <- app_assoc|]; reflexivity.
Qed.

Lemma first_nonws_toks (s : str) : first_nonws s = first_nonws (concat (toks_go s None)).
Proof. unfold first_nonws. rewrite <- filter_toks. reflexivity. Qed.

(** [BufRead::lines] gives back the lines of the text the writer builds. *)
Lemma lines_go_keep (a : N) (acc : str) :
  a <> 13 ->
  match a :: acc with 13 :: acc' => rev acc' | _ => rev (a :: acc) end = rev (a :: acc).
Proof.
  intro Ha. destruct a as [|p]; [reflexivity|].
  repeat (destruct p as [p|p|]; try reflexivity). contradiction.
Qed.

Lemma lines_go_line (l r acc : str) :
  line_clean l = true -> forallb (fun c => negb (c =? 13)) acc = true ->
  lines_go (l ++ 10 :: r) acc = (rev acc ++ l) :: lines_go r [].
Proof.
  revert acc. induction l as [|c l IH]; intros acc Hl Ha.
  - simpl. rewrite app_nil_r. destruct acc as [|a acc]; [reflexivity|].
    simpl in Ha. apply andb_prop in Ha as [Ha _]. apply negb_true_iff, N.eqb_neq in Ha.
    rewrite lines_go_keep by exact Ha. reflexivity.
  - simpl in Hl. apply andb_prop in Hl as [Hc Hl]. apply andb_prop in Hc as [H10 H13].
    apply negb_true_iff in H10. simpl. rewrite H10, IH.
    + simpl. rewrite <- app_assoc. reflexivity.
    + exact Hl.
    + simpl. rewrite H13. exact Ha.
Qed.

Lemma lines_of_text (ls : list str) :
  Forall (fun l => line_clean l = true) ls ->
  lines_of (concat (map (fun l => l ++ [10]) ls)) = ls.
Proof.
  unfold lines_of. induction 1 as [|l ls Hl _ IH]; [reflexivity|].
  simpl. rewrite <- app_assoc. simpl. rewrite lines_go_line by (auto; reflexivity).
  rewrite IH. reflexivity.
Qed.

(** Decimal digits. *)
Definition dec_step (a : N) (c : N) : N := a * 10 + (c - 48).

Lemma digits_go_fold (fuel : nat) (n : N) (acc : str) (a : N) :
  n < 10 ^ N.of_nat fuel ->
  exists k, fold_left dec_step (digits_go fuel n acc) a = fold_left dec_step acc (a * 10 ^ k + n).
Proof.
  revert n acc a. induction fuel as [|f IH]; intros n acc a Hn.
  - change (N.of_nat 0) with 0 in Hn. rewrite N.pow_0_r in Hn. assert (n = 0) by lia.
    subst n. exists 0. cbn [digits_go]. f_equal. rewrite N.pow_0_r. lia.
  - cbn [digits_go]. destruct (n <? 10) eqn:E.
    + apply N.ltb_lt in E. exists 1. cbn [fold_left]. unfold dec_step. f_equal.
      rewrite N.mod_small by lia. rewrite N.pow_1_r. lia.
    + apply N.ltb_ge in E.
      assert (Hd : n / 10 < 10 ^ N.of_nat f).
      { apply N.Div0.div_lt_upper_bound. rewrite Nat2N.inj_succ, N.pow_succ_r' in Hn. lia. }
      destruct (IH (n / 10) ((48 + n mod 10) :: acc) a Hd) as [k Hk].
      exists (k + 1). rewrite Hk. cbn [fold_left]. unfold dec_step. f_equal.
      pose proof (N.div_mod n 10 ltac:(lia)) as Hq. revert Hq.
      rewrite N.pow_add_r, N.pow_1_r. generalize (n / 10) (n mod 10). intros q r Hq.
      subst n. nia.
Qed.

Lemma digits_go_digits (fuel : nat) (n : N) (acc : str) :
  forallb is_digit acc = true -> forallb is_digit (digits_go fuel n acc) = true.
Proof.
  revert n acc. induction fuel as [|f IH]; intros n acc H; [exact H|].
  assert (Hc : forallb is_digit ((48 + n mod 10) :: acc) = true).
  { pose proof (N.mod_lt n 10 ltac:(lia)) as Hm. revert Hm.
    generalize (n mod 10). intros r Hr.
    cbn [forallb]. rewrite H. unfold is_digit.
    replace (48 <=? 48 + r) with true by (symmetry; apply N.leb_le; lia).
    replace (48 + r <=? 57) with true by (symmetry; apply N.leb_le; lia).
    reflexivity. }
  simpl. destruct (n <? 10); [exact Hc|]. apply IH. exact Hc.
Qed.

Lemma digits_go_nonempty (f : nat) (n : N) (acc : str) : digits_go (S f) n acc <> [].
Proof.
  revert n acc. induction f as [|f IH]; intros n acc; simpl.
  - destruct (n <? 10); discriminate.
  - destruct (n <? 10); [discriminate|]. apply IH.
Qed.

Lemma show_N_bound (n : N) : n < 10 ^ N.of_nat (S (N.to_nat (N.size n))).
Proof.
  pose proof (N.size_gt n) as H.
  assert (2 ^ N.size n <= 10 ^ N.size n) by (apply N.pow_le_mono_l; lia).
  assert (10 ^ N.size n <= 10 ^ N.of_nat (S (N.to_nat (N.size n)))).
  { apply N.pow_le_mono_r; [lia|]. rewrite Nat2N.inj_succ, N2Nat.id. lia. }
  lia.
Qed.

Lemma show_N_fold (n : N) : fold_left dec_step (show_N n) 0 = n.
Proof.
  unfold show_N. destruct (digits_go_fold _ n [] 0 (show_N_bound n)) as [k ->].
  simpl. lia.
Qed.

Lemma show_N_digits (n : N) : forallb is_digit (show_N n) = true.
Proof. apply digits_go_digits. reflexivity. Qed.

Lemma show_N_nonempty (n : N) : show_N n <> [].
Proof. apply digits_go_nonempty. Qed.

Lemma digits_ntok (s : str) : forallb is_digit s = true -> ntok s = true.
Proof.
  intro H. apply nonws_ntok. rewrite forallb_forall in H |- *. intros c Hc.
  rewrite digit_not_ws by (apply H; exact Hc). reflexivity.
Qed.

Lemma show_N_tok (n : N) : show_N n <> [] /\ ntok (show_N n) = true.
Proof. split; [apply show_N_nonempty|apply digits_ntok, show_N_digits]. Qed.

Lemma dec_fold_ge (l : str) (a : N) : a <= fold_left dec_step l a.
Proof.
  revert a. induction l as [|c l IH]; intro a; simpl; [lia|].
  specialize (IH (dec_step a c)). unfold dec_step in *. lia.
Qed.

Lemma u64_digits_fold (l : str) (a : N) :
  forallb is_digit l = true -> fold_left dec_step l a < u64_bound ->
  u64_digits l a = Some (fold_left dec_step l a).
Proof.
  revert a. induction l as [|c l IH]; intros a Hd Hb; [reflexivity|].
  simpl in Hd. apply andb_prop in Hd as [Hc Hd]. simpl in Hb |- *.
  rewrite Hc. pose proof (dec_fold_ge l (dec_step a c)).
  unfold dec_step in *.
  replace (a * 10 + (c - 48) <? u64_bound) with true by (symmetry; apply N.ltb_lt; lia).
  apply IH; assumption.
Qed.

Lemma unsigned_not_plus (c : N) (s : str) :
  c <> 43 -> unsigned_from_str (c :: s) = u64_from_str (c :: s).
Proof.
  intro Hc. destruct c as [|p]; [reflexivity|].
  repeat (destruct p as [p|p|]; try reflexivity). contradiction.
Qed.

Lemma unsigned_show_N (n : N) : n < u64_bound -> unsigned_from_str (show_N n) = Some n.
Proof.
  intro Hn. pose proof (show_N_digits n) as Hd. pose proof (show_N_fold n) as Hf.
  destruct (show_N n) as [|c s] eqn:E; [exfalso; exact (show_N_nonempty n E)|].
  assert (Hc : is_digit c = true) by (simpl in Hd; apply andb_prop in Hd; tauto).
  unfold is_digit in Hc. apply andb_prop in Hc as [Hc1 Hc2]. apply N.leb_le in Hc1, Hc2.
  rewrite unsigned_not_plus by lia.
  assert (H43 : (c =? 43) = false) by (apply N.eqb_neq; lia).
  assert (H45 : (c =? 45) = false) by (apply N.eqb_neq; lia).
  assert (Hu : u64_digits (c :: s) 0 = Some n).
  { rewrite u64_digits_fold; [rewrite Hf; reflexivity|exact Hd|rewrite Hf; exact Hn]. }
  unfold u64_from_str. destruct s as [|c' s']; rewrite H43; [rewrite H45|]; exact Hu.
Qed.

(** The [f64] interface as the writer and reader use it together: the
    printed form of a number is a word without whitespace that parses back
    to the number, and a minus sign put before the printed negation of a
    negative number reads back that number. *)
Hypothesis dtoa_parse : forall x, parse_f64 (dtoa x) = Some x.
Hypothesis dtoa_neg_parse : forall v, fcmp v = Some Lt -> parse_f64 (45 :: dtoa (fneg v)) = Some v.
Hypothesis dtoa_word :
  forall x, dtoa x <> [] /\ forallb (fun c => negb (is_whitespace c)) (dtoa x) = true.

Lemma dtoa_tok (x : F) : dtoa x <> [] /\ ntok (dtoa x) = true.
Proof. destruct (dtoa_word x) as [H1 H2]. split; [exact H1|apply nonws_ntok, H2]. Qed.

Lemma fmt_flag_tok (b : bool) : fmt_flag b <> [] /\ ntok (fmt_flag b) = true.
Proof. destruct b; split; (discriminate || reflexivity). Qed.

Lemma neg_dtoa_tok (x : F) : 45 :: dtoa x <> [] /\ ntok (45 :: dtoa x) = true.
Proof. split; [discriminate|]. simpl. apply dtoa_tok. Qed.

Lemma toks_line_by3 (a : v3) :
  toks_go ([32; 32] ++ by3 dtoa a) None = let '(x, y, z) := a in [dtoa x; dtoa y; dtoa z].
Proof. apply toks_by3_end, dtoa_tok. Qed.

Lemma toks_line_by3_indent (a : v3) :
  toks_go ([32; 32; 32; 32] ++ by3 dtoa a) None = let '(x, y, z) := a in [dtoa x; dtoa y; dtoa z].
Proof. apply toks_by3_end, dtoa_tok. Qed.

Lemma toks_line_flags (a : v3) (b : bool * bool * bool) :
  toks_go ([32; 32] ++ by3 dtoa a ++ [32] ++ by3 fmt_flag b) None
  = (let '(x, y, z) := a in [dtoa x; dtoa y; dtoa z])
    ++ (let '(x, y, z) := b in [fmt_flag x; fmt_flag y; fmt_flag z]).
Proof.
  change ([32; 32] ++ by3 dtoa a ++ [32] ++ by3 fmt_flag b)
    with (repeat 32 2 ++ by3 dtoa a ++ 32 :: by3 fmt_flag b).
  rewrite toks_spaces, toks_by3 by (apply dtoa_tok || reflexivity).
  rewrite toks_by3_end by apply fmt_flag_tok.
  destruct a as [[x y] z], b as [[b0 b1] b2]. reflexivity.
Qed.

(** The word-level sub-parsers only look at the texts of the words. *)
Lemma read3_ok (line : Spanned) (ws : list Spanned) (msg : string) (x y z : F) (r : list str) :
  map stext ws = dtoa x :: dtoa y :: dtoa z :: r ->
  exists ws', read3 line ws msg = Ok ((x, y, z), ws') /\ map stext ws' = r.
Proof.
  destruct ws as [|w0 [|w1 [|w2 ws]]]; simpl; intro H; try discriminate.
  injection H as H0 H1 H2 H3. exists ws.
  unfold read3, next_or_err, parse_float. simpl.
  rewrite H0, H1, H2, !dtoa_parse. split; [reflexivity|exact H3].
Qed.

Lemma read_flag_ok (line : Spanned) (ws : list Spanned) (b : bool) (r : list str) :
  map stext ws = fmt_flag b :: r ->
  exists ws', read_flag line ws = Ok (b, ws') /\ map stext ws' = r.
Proof.
  destruct ws as [|w ws]; simpl; intro H; try discriminate.
  injection H as H0 H1. exists ws.
  unfold read_flag, next_or_err. simpl. rewrite H0.
  destruct b; split; (reflexivity || exact H1).
Qed.

Lemma words_of_texts (sp : Spanned) (t : str) (r : list str) :
  toks_go (stext sp) None = t :: r -> exists w ws, words sp = w :: ws /\ stext w = t.
Proof.
  rewrite <- words_texts. destruct (words sp) as [|w ws]; simpl; intro H; [discriminate|].
  injection H as H _. exists w, ws. split; [reflexivity|exact H].
Qed.

Lemma position_line_plain (i : nat) (a : v3) :
  position_line false (mkSpanned i 0 ([32; 32] ++ by3 dtoa a)) = Ok (a, None).
Proof.
  unfold position_line.
  pose proof (words_texts_at i 0 ([32; 32] ++ by3 dtoa a)) as Hw.
  rewrite toks_line_by3 in Hw.
  destruct a as [[x y] z].
  destruct (read3_ok (mkSpanned i 0 ([32; 32] ++ by3 dtoa (x, y, z)))
              _ "expected 3 coordinates" x y z [] Hw) as [ws' [-> _]].
  reflexivity.
Qed.

Lemma position_line_flags_ok (i : nat) (a : v3) (b : bool * bool * bool) :
  position_line true (mkSpanned i 0 ([32; 32] ++ by3 dtoa a ++ [32] ++ by3 fmt_flag b))
  = Ok (a, Some b).
Proof.
  unfold position_line.
  pose proof (words_texts_at i 0 ([32; 32] ++ by3 dtoa a ++ [32] ++ by3 fmt_flag b)) as Hw.
  rewrite toks_line_flags in Hw.
  set (sp := mkSpanned i 0 _) in *.
  destruct a as [[x y] z], b as [[b0 b1] b2].
  destruct (read3_ok sp _ "expected 3 coordinates" x y z _ Hw) as [ws1 [-> H1]].
  cbn [bind].
  destruct (read_flag_ok sp ws1 b0 _ H1) as [ws2 [-> H2]]. cbn [bind].
  destruct (read_flag_ok sp ws2 b1 _ H2) as [ws3 [-> H3]]. cbn [bind].
  destruct (read_flag_ok sp ws3 b2 _ H3) as [ws4 [-> _]]. reflexivity.
Qed.

Lemma scale_reread_factor (i : nat) (x : F) :
  fcmp x = Some Gt -> scale_of_line (mkSpanned i 0 ([32; 32] ++ dtoa x)) = Ok (Factor x).
Proof.
  intro Hx.
  pose proof (words_texts_at i 0 ([32; 32] ++ dtoa x)) as Hw.
  change ([32; 32] ++ dtoa x) with (repeat 32 2 ++ dtoa x) in Hw at 2.
  rewrite toks_spaces, toks_word_end in Hw by apply dtoa_tok.
  unfold scale_of_line.
  destruct (words _) as [|w [|w' ws]]; simpl in Hw; try discriminate.
  injection Hw as Hw. unfold next_or_err, parse_float. cbn [bind].
  rewrite Hw, dtoa_parse. cbn [bind]. rewrite Hx. reflexivity.
Qed.

Lemma scale_reread_volume (i : nat) (v : F) :
  fcmp v = Some Lt ->
  scale_of_line (mkSpanned i 0 ([32; 32; 45] ++ dtoa (fneg v))) = Ok (Volume (fneg v)).
Proof.
  intro Hv.
  pose proof (words_texts_at i 0 ([32; 32; 45] ++ dtoa (fneg v))) as Hw.
  change ([32; 32; 45] ++ dtoa (fneg v)) with (repeat 32 2 ++ (45 :: dtoa (fneg v))) in Hw at 2.
  rewrite toks_spaces, toks_word_end in Hw by apply neg_dtoa_tok.
  unfold scale_of_line.
  destruct (words _) as [|w [|w' ws]]; simpl in Hw; try discriminate.
  injection Hw as Hw. unfold next_or_err, parse_float. cbn [bind].
  rewrite Hw, dtoa_neg_parse by exact Hv. cbn [bind]. rewrite Hv. reflexivity.
Qed.

Lemma lattice_reread (k : nat) (a : v3) (r : list str) :
  lattice_row (mkLines k (lattice_text a :: r)) = Ok (a, mkLines (S k) r).
Proof.
  unfold lattice_row, next, lattice_text. cbn [rest cur bind].
  pose proof (words_texts_at k 0 ([32; 32; 32; 32] ++ by3 dtoa a)) as Hw.
  rewrite toks_line_by3_indent in Hw. destruct a as [[x y] z].
  destruct (read3_ok (mkSpanned k 0 ([32; 32; 32; 32] ++ by3 dtoa (x, y, z))) _
              "expected three components for lattice vector" x y z [] Hw) as [ws' [-> _]].
  reflexivity.
Qed.

(** Symbols and counts. *)
Lemma negb_existsb {A} (f : A -> bool) (l : list A) :
  negb (existsb f l) = forallb (fun x => negb (f x)) l.
Proof. induction l as [|x l IH]; simpl; [reflexivity|]. rewrite negb_orb, IH. reflexivity. Qed.

Lemma valid_symbol_tok (s : str) :
  is_valid_symbol_for_symbol_line s = true -> s <> [] /\ ntok s = true.
Proof.
  destruct s as [|c s]; [discriminate|]. simpl. intro H.
  apply andb_prop in H as [H _]. rewrite negb_orb in H. apply andb_prop in H as [H1 H2].
  split; [discriminate|]. rewrite H1. simpl. rewrite negb_existsb in H2. exact H2.
Qed.

Lemma parse_symbols_texts (ws : list Spanned) :
  forallb is_valid_symbol_for_symbol_line (map stext ws) = true ->
  parse_symbols ws = Ok (map stext ws).
Proof.
  unfold parse_symbols. induction ws as [|w ws IH]; simpl; intro H; [reflexivity|].
  apply andb_prop in H as [H1 H2]. rewrite H1. cbn [bind]. rewrite IH by exact H2. reflexivity.
Qed.

Lemma take_counts_texts (ws : list Spanned) (cn : list N) :
  map stext ws = map show_N cn -> Forall (fun c => c < u64_bound) cn -> take_counts ws = cn.
Proof.
  revert ws. induction cn as [|c cn IH]; intros ws H Hb; destruct ws as [|w ws];
    simpl in H; try discriminate; [reflexivity|].
  injection H as H1 H2. inversion Hb; subst.
  simpl. rewrite H1, unsigned_show_N by assumption. f_equal. apply IH; assumption.
Qed.

Lemma usize_sum_go_bound (xs : list N) (acc n : N) :
  usize_sum_go xs acc = Ok n -> Forall (fun c => c < u64_bound) xs.
Proof.
  revert acc. induction xs as [|x xs IH]; intros acc H; simpl in H; [constructor|].
  destruct (acc + x <? u64_bound) eqn:E; [|discriminate].
  apply N.ltb_lt in E. constructor; [lia|]. eapply IH. exact H.
Qed.

Lemma toks_counts (cn : list N) : toks_go (counts_text cn) None = map show_N cn.
Proof.
  unfold counts_text. rewrite <- map_map with (g := pad2).
  apply toks_pad2_line. apply Forall_forall. intros t Ht.
  apply in_map_iff in Ht as [c [<- _]]. apply show_N_tok.
Qed.

Lemma trim_cons (s : str) (c : N) :
  first_nonws s = Some c -> exists t, trim s = c :: t.
Proof.
  rewrite <- trim_first. destruct (trim s) as [|c' t]; simpl; intro H; [discriminate|].
  injection H as ->. exists t. reflexivity.
Qed.

Lemma first_nonws_show_N (n : N) (r : str) :
  exists d, first_nonws (show_N n ++ r) = Some d /\ is_digit d = true.
Proof.
  pose proof (show_N_digits n) as Hd.
  destruct (show_N n) as [|d t] eqn:E; [exfalso; exact (show_N_nonempty n E)|].
  simpl in Hd. apply andb_prop in Hd as [Hd _].
  exists d. split; [|exact Hd].
  unfold first_nonws. simpl. rewrite (digit_not_ws d Hd). reflexivity.
Qed.

Lemma counts_block_reread_none (i : nat) (st : Lines) (cn : list N) :
  usize_sum cn = Ok (sumN cn) -> sumN cn <> 0 ->
  counts_block (mkSpanned i 0 (counts_text cn)) st = Ok (None, cn, sumN cn, st).
Proof.
  intros Hs Hz.
  assert (Hne : cn <> []) by (intros ->; apply Hz; reflexivity).
  pose proof (words_texts_at i 0 (counts_text cn)) as Hw. rewrite toks_counts in Hw.
  destruct cn as [|c0 cs]; [congruence|].
  destruct (first_nonws_show_N c0 (concat (map show_N cs))) as [d [Hd Hdig]].
  assert (Hf : first_nonws (counts_text (c0 :: cs)) = Some d)
    by (rewrite first_nonws_toks, toks_counts; exact Hd).
  destruct (trim_cons _ _ Hf) as [t Ht].
  unfold counts_block, symbols_stage.
  destruct (words (mkSpanned i 0 (counts_text (c0 :: cs)))) as [|w ws] eqn:Ew;
    [discriminate|].
  cbn [next_or_err bind stext]. rewrite Ht, Hdig. cbn [bind].
  rewrite Ew, (take_counts_texts (w :: ws) (c0 :: cs)) by
    (exact Hw || (unfold usize_sum in Hs; eapply usize_sum_go_bound; exact Hs)).
  rewrite Hs. cbn [bind]. apply N.eqb_neq in Hz. rewrite Hz. reflexivity.
Qed.

Lemma counts_block_reread_some (i : nat) (r s : list str) (cn : list N) :
  forallb is_valid_symbol_for_symbol_line s = true -> length s = length cn ->
  symbols_ok (Some s) -> usize_sum cn = Ok (sumN cn) -> sumN cn <> 0 ->
  counts_block (mkSpanned i 0 (symbols_text s)) (mkLines (S i) (counts_text cn :: r))
  = Ok (Some s, cn, sumN cn, mkLines (S (S i)) r).
Proof.
  intros Hv Hl [c [Hc Hdig]] Hs Hz.
  assert (Hne : cn <> []) by (intros ->; apply Hz; reflexivity).
  assert (Htoks : toks_go (symbols_text s) None = s).
  { apply toks_pad2_line. apply Forall_forall. intros t Ht.
    apply valid_symbol_tok. rewrite forallb_forall in Hv. apply Hv, Ht. }
  assert (Hf : first_nonws (symbols_text s) = Some c)
    by (rewrite first_nonws_toks, Htoks; exact Hc).
  destruct (trim_cons _ _ Hf) as [t Ht].
  pose proof (words_texts_at i 0 (symbols_text s)) as Hw. rewrite Htoks in Hw.
  pose proof (words_texts_at (S i) 0 (counts_text cn)) as Hwc. rewrite toks_counts in Hwc.
  unfold counts_block, symbols_stage.
  destruct (words (mkSpanned i 0 (symbols_text s))) as [|w ws] eqn:Ew.
  { simpl in Hw. subst s. destruct cn; [congruence|discriminate]. }
  cbn [next_or_err bind stext]. rewrite Ht, Hdig.
  rewrite parse_symbols_texts by (rewrite Hw; exact Hv). rewrite Hw.
  unfold next. cbn [rest cur bind].
  rewrite (take_counts_texts _ cn Hwc)
    by (unfold usize_sum in Hs; eapply usize_sum_go_bound; exact Hs).
  rewrite Hl, Nat.eqb_refl. cbn [bind].
  rewrite Hs. cbn [bind]. apply N.eqb_neq in Hz. rewrite Hz. reflexivity.
Qed.

(** The flag lines. *)
Lemma flag_lines_reread (k : nat) (dyn : option (list (bool * bool * bool))) (pos : Coords)
    (r : list str) :
  flag_lines (mkLines k (sd_lines dyn ++ header_text pos :: r))
  = Ok (match pos with Cart _ => false | Frac _ => true end,
        match dyn with Some _ => true | None => false end,
        mkLines (S (length (sd_lines dyn) + k)) r).
Proof. destruct dyn, pos; reflexivity. Qed.

(** The position lines. *)
Lemma position_lines_reread_plain (k : nat) (ps : list v3) (r : list str) :
  position_lines (length ps) false
    (mkLines k (map (fun c => [32; 32] ++ by3 dtoa c) ps ++ r))
  = Ok (ps, [], mkLines (k + length ps) r).
Proof.
  revert k. induction ps as [|a ps IH]; intro k.
  - rewrite Nat.add_0_r. reflexivity.
  - cbn [length position_lines map]. rewrite <- app_comm_cons. unfold next. cbn [rest cur bind].
    rewrite position_line_plain. cbn [bind]. rewrite IH. cbn [bind].
    rewrite Nat.add_succ_r. reflexivity.
Qed.

Lemma position_lines_reread_flags (k : nat) (ps : list v3) (d : list (bool * bool * bool))
    (r : list str) :
  length d = length ps ->
  position_lines (length ps) true
    (mkLines k (map (fun '(c, b) => [32; 32] ++ by3 dtoa c ++ [32] ++ by3 fmt_flag b)
                    (combine ps d) ++ r))
  = Ok (ps, d, mkLines (k + length ps) r).
Proof.
  revert k d. induction ps as [|a ps IH]; intros k d Hd.
  - destruct d; [|discriminate]. rewrite Nat.add_0_r. reflexivity.
  - destruct d as [|b d]; [discriminate|]. injection Hd as Hd.
    cbn [length position_lines map combine]. rewrite <- app_comm_cons. unfold next. cbn [rest cur bind].
    rewrite position_line_flags_ok. cbn [bind]. rewrite IH by exact Hd. cbn [bind].
    rewrite Nat.add_succ_r. reflexivity.
Qed.

(** The velocities. *)
Lemma velocity_lines_reread (k : nat) (vs : list v3) (r : list str) :
  velocity_lines (length vs) (mkLines k (map (fun x => [32; 32] ++ by3 dtoa x) vs ++ r))
  = Ok (vs, mkLines (k + length vs) r).
Proof.
  revert k. induction vs as [|a vs IH]; intro k.
  - rewrite Nat.add_0_r. reflexivity.
  - cbn [length velocity_lines map]. rewrite <- app_comm_cons. unfold next. cbn [rest cur bind].
    pose proof (words_texts_at k 0 ([32; 32] ++ by3 dtoa a)) as Hw.
    rewrite toks_line_by3 in Hw. destruct a as [[x y] z].
    destruct (read3_ok (mkSpanned k 0 ([32; 32] ++ by3 dtoa (x, y, z))) _
                "expected 3 coordinates" x y z [] Hw) as [ws' [-> _]].
    cbn [bind]. rewrite IH. cbn [bind]. rewrite Nat.add_succ_r. reflexivity.
Qed.

Lemma first_line_by3 (a : v3) : exists c t, trim ([32; 32] ++ by3 dtoa a) = c :: t.
Proof.
  destruct a as [[x y] z]. destruct (dtoa_word x) as [Hne Hx].
  destruct (dtoa x) as [|c u] eqn:E; [congruence|].
  simpl in Hx. apply andb_prop in Hx as [Hc _]. apply negb_true_iff in Hc.
  exists c. apply trim_cons. unfold by3. rewrite E. unfold first_nonws. simpl.
  rewrite Hc. reflexivity.
Qed.

Lemma velocities_block_reread (k : nat) (v : Coords) :
  coords_raw v <> [] ->
  exists k', velocities_block (N.of_nat (length (coords_raw v))) (mkLines k (vel_text v))
             = Ok (Some v, mkLines k' []).
Proof.
  intro Hne.
  assert (Hv : exists v0 vs, coords_raw v = v0 :: vs) by
    (destruct (coords_raw v) as [|v0 vs]; [congruence|eauto]).
  destruct Hv as [v0 [vs Hv]].
  assert (Hn : (N.of_nat (length (coords_raw v)) =? 0) = false)
    by (rewrite Hv; apply N.eqb_neq; simpl; lia).
  assert (Hk : N.to_nat (N.of_nat (length (coords_raw v)) - 1) = length vs)
    by (rewrite Hv; cbn [length]; rewrite Nat2N.inj_succ, N.sub_1_r, N.pred_succ, Nat2N.id;
        reflexivity).
  pose proof (words_texts_at (S k) 0 ([32; 32] ++ by3 dtoa v0)) as Hw.
  rewrite toks_line_by3 in Hw.
  destruct (first_line_by3 v0) as [c [t Ht]].
  unfold velocities_block, vel_text. rewrite Hn, Hk, Hv.
  destruct v as [xs|xs]; simpl in Hv; subst xs; cbn [map]; unfold next; cbn [rest cur].
  - change (classify_coord_line (s2l "Cartesian")) with Cartesian. cbn iota beta.
    destruct v0 as [[x y] z].
    destruct (read3_ok (mkSpanned (S k) 0 ([32; 32] ++ by3 dtoa (x, y, z))) _
                "expected 3 coordinates" x y z [] Hw) as [ws' [-> _]].
    cbn [bind]. rewrite <- (app_nil_r (map _ vs)), velocity_lines_reread. cbn [bind].
    eexists. reflexivity.
  - change (classify_coord_line []) with EmptyOrWhitespace. cbn iota beta.
    cbn [stext]. rewrite Ht. destruct v0 as [[x y] z].
    destruct (read3_ok (mkSpanned (S k) 0 ([32; 32] ++ by3 dtoa (x, y, z))) _
                "expected 3 coordinates" x y z [] Hw) as [ws' [-> _]].
    cbn [bind]. rewrite <- (app_nil_r (map _ vs)), velocity_lines_reread. cbn [bind].
    eexists. reflexivity.
Qed.

(** What a successful parse guarantees beyond [validate]. *)
Lemma scale_of_line_good (line : Spanned) (s : ScaleLine) :
  scale_of_line line = Ok s -> scale_ok s.
Proof.
  unfold scale_of_line. intro H.
  destruct (next_or_err _ _ _) as [[w ws]| |]; cbn [bind] in H; try discriminate.
  destruct (parse_float w) as [v| |]; cbn [bind] in H; try discriminate.
  assert (Hs : forall s', (match ws with
                           | w :: _ => match parse_f64 (stext w) with
                                       | Some _ => Err (span_error w (Generic "too many floats on scale line (expected just one)"))
                                       | None => Ok s'
                                       end
                           | [] => Ok s'
                           end) = Ok s -> s' = s).
  { intros s' H'. destruct ws as [|w' ws']; [congruence|].
    destruct (parse_f64 (stext w')); congruence. }
  destruct (fcmp v) as [[| |]|] eqn:Ev; cbn [bind] in H; try discriminate;
    apply Hs in H; subst s; simpl; eauto.
Qed.

Lemma parse_symbols_inv (ws : list Spanned) (s : list str) :
  parse_symbols ws = Ok s -> s = map stext ws.
Proof.
  unfold parse_symbols. revert s. induction ws as [|w ws IH]; intros s H; simpl in H.
  - injection H as <-. reflexivity.
  - destruct (is_valid_symbol_for_symbol_line (stext w)); cbn [bind] in H; [|discriminate].
    destruct (mapM _ ws) as [s'| |] eqn:E; cbn [bind] in H; try discriminate.
    injection H as <-. rewrite (IH s' eq_refl). reflexivity.
Qed.

Lemma counts_block_symbols_good (line : Spanned) (st st' : Lines) syms counts (n : N) :
  counts_block line st = Ok (syms, counts, n, st') -> symbols_ok syms.
Proof.
  unfold counts_block. intro H.
  destruct (symbols_stage line st) as [[[sy cl] st'']| |] eqn:E; cbn [bind] in H;
    try discriminate.
  assert (sy = syms).
  { destruct (match sy with Some s => _ | None => _ end); cbn [bind] in H; try discriminate.
    destruct (usize_sum _); cbn [bind] in H; try discriminate.
    destruct (_ =? 0); congruence. }
  subst sy. destruct syms as [s|]; [|exact I].
  unfold symbols_stage in E.
  destruct (next_or_err _ _ _); cbn [bind] in E; try discriminate.
  destruct (trim (stext line)) as [|c t] eqn:Ht; [discriminate|].
  destruct (is_digit c) eqn:Hd; [discriminate|].
  destruct (parse_symbols (words line)) as [k| |] eqn:Ep; cbn [bind] in E; try discriminate.
  destruct (next st) as [[cl' st0]| |]; cbn [bind] in E; try discriminate.
  injection E as <- _ _. apply parse_symbols_inv in Ep. subst k.
  exists c. split; [|exact Hd].
  rewrite words_texts, <- first_nonws_toks, <- trim_first, Ht. reflexivity.
Qed.

Lemma parse_head_good (st st' : Lines) (h : Head) :
  parse_head st = Ok (h, st') -> scale_ok (h_scale h) /\ symbols_ok (h_symbols h).
Proof.
  unfold parse_head. intro H. split_ok. simpl.
  split.
  - match goal with E : scale_of_line _ = Ok _ |- _ => exact (scale_of_line_good _ _ E) end.
  - match goal with E : counts_block _ _ = Ok _ |- _ => exact (counts_block_symbols_good _ _ _ _ _ _ E) end.
Qed.

Lemma from_lines_good (L : list str) (D : RawPoscar) :
  from_lines L = Ok D ->
  validate D = true /\ scale_ok (scale D) /\ symbols_ok (group_symbols D).
Proof.
  unfold from_lines, parse_raw. intro H.
  destruct (parse_head (mkLines 0 L)) as [[h st]| |] eqn:Eh; cbn [bind] in H; try discriminate.
  destruct (velocities_block _ _) as [[vel st1]| |]; cbn [bind] in H; try discriminate.
  destruct (expect_blank_until_eof st1); cbn [bind] in H; try discriminate.
  unfold validated in H. destruct (validate (assemble h vel)) eqn:Ev; [|discriminate].
  injection H as <-. apply parse_head_good in Eh. split; [exact Ev|exact Eh].
Qed.

(** [validate], taken apart. *)
Lemma validate_facts (D : RawPoscar) :
  validate D = true ->
  line_clean (comment D) = true
  /\ usize_sum (group_counts D) = Ok (sumN (group_counts D))
  /\ sumN (group_counts D) <> 0
  /\ (forall s, group_symbols D = Some s ->
        forallb is_valid_symbol_for_symbol_line s = true /\ length s = length (group_counts D))
  /\ N.of_nat (length (coords_raw (positions D))) = sumN (group_counts D)
  /\ (forall d, dynamics D = Some d -> N.of_nat (length d) = sumN (group_counts D))
  /\ (forall v, velocities D = Some v ->
        N.of_nat (length (coords_raw v)) = sumN (group_counts D)).
Proof.
  unfold validate. intro H.
  apply andb_prop in H as [H Hn]. apply andb_prop in H as [Hc Hsy].
  destruct (usize_sum (group_counts D)) as [n| |] eqn:Es; [|discriminate|discriminate].
  pose proof (usize_sum_ok _ _ Es) as En. subst n.
  apply andb_prop in Hn as [Hn Hv]. apply andb_prop in Hn as [Hn Hd].
  apply andb_prop in Hn as [Hz Hp].
  split; [|split; [reflexivity|split; [|split; [|split; [|split]]]]].
  - unfold line_clean. rewrite negb_existsb, forallb_forall in Hc. apply forallb_forall.
    intros x Hx. specialize (Hc x Hx). rewrite negb_orb in Hc. exact Hc.
  - apply negb_true_iff, N.eqb_neq in Hz. exact Hz.
  - intros s Hs. rewrite Hs in Hsy. apply andb_prop in Hsy as [Hl Hv'].
    split; [exact Hv'|apply Nat.eqb_eq, Hl].
  - apply N.eqb_eq, Hp.
  - intros d Hdd. rewrite Hdd in Hd. apply N.eqb_eq, Hd.
  - intros v Hvv. rewrite Hvv in Hv. apply N.eqb_eq, Hv.
Qed.

Lemma scale_reread (i : nat) (s : ScaleLine) :
  scale_ok s -> scale_of_line (mkSpanned i 0 (scale_text s)) = Ok s.
Proof.
  destruct s as [x|x]; simpl; intro H.
  - apply scale_reread_factor, H.
  - destruct H as [v [-> Hv]]. apply scale_reread_volume, Hv.
Qed.

Lemma position_lines_reread (k : nat) (ps : list v3) (dyn : option (list (bool * bool * bool)))
    (r : list str) :
  (forall d, dyn = Some d -> length d = length ps) ->
  position_lines (length ps) (match dyn with Some _ => true | None => false end)
    (mkLines k (position_texts ps dyn ++ r))
  = Ok (ps, match dyn with Some d => d | None => [] end, mkLines (k + length ps) r).
Proof.
  intro Hd. destruct dyn as [d|]; unfold position_texts.
  - apply position_lines_reread_flags, Hd. reflexivity.
  - apply position_lines_reread_plain.
Qed.

Lemma head_reread (D : RawPoscar) (R : list str) :
  validate D = true -> scale_ok (scale D) -> symbols_ok (group_symbols D) ->
  exists K, parse_head (mkLines 0 (head_texts D ++ R)) = Ok (head_of D, mkLines K R).
Proof.
  intros Hv Hsc Hsok.
  destruct (validate_facts D Hv) as (_ & Hs & Hz & Hsy & Hp & Hd & _).
  destruct D as [cm sc [[a b] c] sy cn pos vel dyn].
  cbn [comment scale lattice_vectors group_symbols group_counts positions velocities dynamics]
    in *.
  assert (Hn : N.to_nat (sumN cn) = length (coords_raw pos)) by (rewrite <- Hp; lia).
  assert (Hd' : forall d, dyn = Some d -> length d = length (coords_raw pos))
    by (intros d E; apply Hd in E; lia).
  unfold head_texts, head_of, parse_head. cbn [lattice_vectors comment scale group_symbols
    group_counts dynamics positions].
  unfold next at 1 2 3. cbn [rest cur bind app].
  rewrite scale_reread by exact Hsc. cbn [bind].
  do 3 (rewrite lattice_reread; cbn [bind rest cur]).
  destruct sy as [s|]; cbn [symbols_lines app rest cur bind].
  - destruct (Hsy s eq_refl) as [Hv1 Hl].
    rewrite counts_block_reread_some by assumption. cbn [bind].
    rewrite <- app_assoc. cbn [app].
    rewrite flag_lines_reread. cbn [bind].
    rewrite Hn, position_lines_reread by exact Hd'. cbn [bind].
    eexists. destruct pos, dyn; reflexivity.
  - rewrite counts_block_reread_none by assumption. cbn [bind].
    rewrite <- app_assoc. cbn [app].
    rewrite flag_lines_reread. cbn [bind].
    rewrite Hn, position_lines_reread by exact Hd'. cbn [bind].
    eexists. destruct pos, dyn; reflexivity.
Qed.

Lemma head_of_assemble (D : RawPoscar) : assemble (head_of D) (velocities D) = D.
Proof. destruct D. reflexivity. Qed.

Lemma existsb_clean (l : str) :
  line_clean l = true ->
  existsb (fun c => c =? 10) l = false /\ existsb (fun c => c =? 13) l = false.
Proof.
  unfold line_clean. induction l as [|c l IH]; simpl; intro H; [split; reflexivity|].
  apply andb_prop in H as [Hc H]. apply andb_prop in Hc as [H10 H13].
  apply negb_true_iff in H10, H13. rewrite H10, H13. apply IH, H.
Qed.

Lemma write_lines_texts (D : RawPoscar) :
  validate D = true -> write_lines D = Ok (head_texts D ++ velocity_texts (velocities D)).
Proof.
  intro Hv. destruct (validate_facts D Hv) as (Hc & _ & Hz & _ & Hp & Hd & _).
  destruct (existsb_clean _ Hc) as [H10 H13].
  destruct D as [cm sc [[a b] c] sy cn pos vel dyn].
  cbn [comment scale lattice_vectors group_symbols group_counts positions velocities dynamics]
    in *.
  unfold write_lines, head_texts.
  cbn [comment scale lattice_vectors group_symbols group_counts positions velocities dynamics].
  rewrite H10, H13.
  destruct cn as [|c0 cs]; [exfalso; apply Hz; reflexivity|].
  destruct dyn as [d|].
  - rewrite write_positions_some by (specialize (Hd d eq_refl); simpl; lia).
    cbn [bind]. rewrite <- !app_assoc. reflexivity.
  - rewrite write_positions_none. cbn [bind]. rewrite <- !app_assoc. reflexivity.
Qed.

(** Every line written is free of LF and CR. *)
Lemma clean_dtoa (x : F) : line_clean (dtoa x) = true.
Proof. apply ntok_clean, dtoa_tok. Qed.

Lemma clean_by3 {A} (f : A -> str) (a : A * A * A) :
  (forall x, line_clean (f x) = true) -> line_clean (by3 f a) = true.
Proof.
  intro Hf. destruct a as [[x y] z]. unfold by3.
  rewrite !line_clean_app, !Hf. reflexivity.
Qed.

Lemma clean_pad2 (t : str) : line_clean t = true -> line_clean (pad2 t) = true.
Proof.
  intro H. unfold pad2. rewrite line_clean_app, H, andb_true_r.
  induction (2 - length t)%nat as [|k IH]; [reflexivity|exact IH].
Qed.

Lemma clean_write_sep (xs : list str) :
  Forall (fun t => line_clean t = true) xs -> line_clean (write_sep xs) = true.
Proof.
  intro H. destruct H as [|x xs Hx H]; [reflexivity|].
  simpl. rewrite line_clean_app, Hx. simpl.
  induction H as [|y ys Hy _ IH]; [reflexivity|].
  simpl. rewrite line_clean_app, Hy, IH. reflexivity.
Qed.

Lemma clean_show_N (n : N) : line_clean (show_N n) = true.
Proof. apply ntok_clean, show_N_tok. Qed.

Lemma clean_by3_line (a : v3) : line_clean ([32; 32] ++ by3 dtoa a) = true.
Proof. rewrite line_clean_app, clean_by3 by exact clean_dtoa. reflexivity. Qed.

Lemma texts_clean (D : RawPoscar) :
  validate D = true ->
  Forall (fun l => line_clean l = true) (head_texts D ++ velocity_texts (velocities D)).
Proof.
  intro Hv. destruct (validate_facts D Hv) as (Hc & _ & _ & Hsy & _ & _ & _).
  destruct D as [cm sc [[a b] c] sy cn pos vel dyn].
  cbn [comment scale lattice_vectors group_symbols group_counts positions velocities dynamics]
    in *.
  unfold head_texts.
  cbn [comment scale lattice_vectors group_symbols group_counts positions velocities dynamics].
  assert (Hl : forall a, line_clean (lattice_text a) = true).
  { intro a'. unfold lattice_text. rewrite line_clean_app, clean_by3 by exact clean_dtoa.
    reflexivity. }
  repeat (apply Forall_app; split); repeat constructor; auto.
  - destruct sc; unfold scale_text; rewrite line_clean_app, clean_dtoa; reflexivity.
  - destruct sy as [s|]; simpl; constructor; auto.
    unfold symbols_text. rewrite line_clean_app. apply andb_true_intro; split; [reflexivity|].
    apply clean_write_sep. apply Forall_forall. intros t Ht.
    apply in_map_iff in Ht as [u [<- Hu]]. apply clean_pad2.
    destruct (Hsy s eq_refl) as [Hv' _]. rewrite forallb_forall in Hv'.
    apply ntok_clean, valid_symbol_tok, Hv', Hu.
  - unfold counts_text. rewrite line_clean_app. apply andb_true_intro; split; [reflexivity|].
    apply clean_write_sep. apply Forall_forall. intros t Ht.
    apply in_map_iff in Ht as [u [<- _]]. apply clean_pad2, clean_show_N.
  - destruct dyn; simpl; repeat constructor.
  - destruct pos; reflexivity.
  - destruct dyn as [d|]; unfold position_texts; apply Forall_forall; intros t Ht;
      apply in_map_iff in Ht as [u [<- _]].
    + destruct u as [p fl]. rewrite app_assoc, line_clean_app, clean_by3_line.
      rewrite line_clean_app, clean_by3 by (intro bb; destruct bb; reflexivity). reflexivity.
    + apply clean_by3_line.
  - destruct vel as [v|]; simpl; constructor.
    + destruct v; reflexivity.
    + apply Forall_forall. intros t Ht. apply in_map_iff in Ht as [u [<- _]].
      apply clean_by3_line.
Qed.

(** Writing a document that a parse produced, then reading the text back,
    gives the document. *)
Lemma write_then_read (D : RawPoscar) :
  validate D = true -> scale_ok (scale D) -> symbols_ok (group_symbols D) ->
  bind (write_text D) from_reader = Ok D.
Proof.
  intros Hv Hsc Hsy.
  destruct (validate_facts D Hv) as (_ & _ & Hz & _ & _ & _ & Hvel).
  unfold write_text. rewrite write_lines_texts by exact Hv. cbn [bind].
  unfold from_reader. rewrite lines_of_text by (apply texts_clean, Hv).
  unfold from_lines, parse_raw.
  destruct (head_reread D (velocity_texts (velocities D)) Hv Hsc Hsy) as [K HK].
  rewrite HK. cbn [bind].
  assert (Hvb : exists k', velocities_block (h_n (head_of D))
                             (mkLines K (velocity_texts (velocities D)))
                           = Ok (velocities D, mkLines k' [])).
  { destruct (velocities D) as [v|] eqn:Ev.
    - specialize (Hvel v eq_refl). cbn [h_n head_of velocity_texts]. rewrite <- Hvel.
      apply velocities_block_reread.
      intro E. rewrite E in Hvel. simpl in Hvel. apply Hz. rewrite <- Hvel. reflexivity.
    - exists K. reflexivity. }
  destruct Hvb as [k' ->]. cbn [bind].
  rewrite expect_blank_nil. cbn [bind].
  rewrite head_of_assemble. unfold validated. rewrite Hv. reflexivity.
Qed.

(** C1 (amended): a document obtained from a successful parse of a text
    is written without failing, and reading the written text back gives
    the same document (all fields equal).  This holds under the three
    hypotheses above on the [f64] printer; for a document that satisfies
    the invariants but did not come from a parse, it can fail: a
    symbol starting with a non-ASCII space is written, then read back
    as a counts line. *)
Theorem parse_write_roundtrip (s : str) (D : RawPoscar) :
  from_reader s = Ok D -> bind (write_text D) from_reader = Ok D.
Proof.
  intro H. destruct (from_lines_good _ _ H) as (Hv & Hsc & Hsy).
  apply write_then_read; assumption.
Qed.

End Poscar.

(** ** Concrete runs, with the test instance of [f64] *)

(** C5 at the spec's example: ["-27.0"] gives a volume of 27. *)
Lemma scale_line_semantics_witness :
  words (mkSpanned 1 0 (s2l "-27.0")) = [mkSpanned 1 0 (s2l "-27.0")]
  /\ ToyFloat.parse (s2l "-27.0") = Some (Some (-27)%Z)
  /\ scale_of_line _ ToyFloat.parse ToyFloat.cmp ToyFloat.neg (mkSpanned 1 0 (s2l "-27.0"))
     = Ok (Volume _ (Some 27%Z)).
Proof.
  split; [reflexivity|split; [reflexivity|]].
  rewrite (scale_line_semantics _ ToyFloat.parse ToyFloat.cmp ToyFloat.neg
             (mkSpanned 1 0 (s2l "-27.0")) (mkSpanned 1 0 (s2l "-27.0")) [] (Some (-27)%Z))
    by reflexivity.
  reflexivity.
Defined.

(** C6: with the symbol "Si" and the counts "0 0", the counts sum to zero
    but the error is the inconsistent number of counts. *)
Lemma counts_block_zero_sum_counterexample :
  sumN (take_counts (words (mkSpanned 6 0 (s2l "0 0")))) = 0
  /\ counts_block (mkSpanned 5 0 (s2l "Si")) (mkLines 6 [s2l "0 0"])
     = Err (span_error (mkSpanned 6 0 (s2l "0 0")) (Generic "Inconsistent number of counts"))
  /\ counts_block (mkSpanned 5 0 (s2l "Si")) (mkLines 6 [s2l "0 0"])
     <> Err (span_error (mkSpanned 6 0 (s2l "0 0")) (Generic "There must be at least one atom.")).
Proof.
  split; [reflexivity|split; [reflexivity|]].
  vm_compute. intro H. injection H. intro E. discriminate E.
Qed.

(** C6 (amended) at "Si Si" over "1 1", "Si" over "1 2" and "1" over "0". *)
Lemma counts_block_errors_witness :
  symbols_stage (mkSpanned 5 0 (s2l "Si")) (mkLines 6 [s2l "1 2"])
  = Ok (Some [s2l "Si"], mkSpanned 6 0 (s2l "1 2"), mkLines 7 [])
  /\ counts_block (mkSpanned 5 0 (s2l "Si")) (mkLines 6 [s2l "1 2"])
     = Err (span_error (mkSpanned 6 0 (s2l "1 2")) (Generic "Inconsistent number of counts"))
  /\ counts_block (mkSpanned 5 0 (s2l "0")) (mkLines 6 [])
     = Err (span_error (mkSpanned 5 0 (s2l "0")) (Generic "There must be at least one atom.")).
Proof.
  assert (H1 : symbols_stage (mkSpanned 5 0 (s2l "Si")) (mkLines 6 [s2l "1 2"])
               = Ok (Some [s2l "Si"], mkSpanned 6 0 (s2l "1 2"), mkLines 7 [])) by reflexivity.
  assert (H2 : symbols_stage (mkSpanned 5 0 (s2l "0")) (mkLines 6 [])
               = Ok (None, mkSpanned 5 0 (s2l "0"), mkLines 6 [])) by reflexivity.
  split; [exact H1|split].
  - apply (proj1 (counts_block_errors _ _ _ _ _ H1) [s2l "Si"] eq_refl). simpl. discriminate.
  - apply (proj1 (proj2 (counts_block_errors _ _ _ _ _ H2))); [discriminate|reflexivity].
Defined.

(** C2: the minimal document followed by one blank line. *)
Lemma no_velocities_at_end_witness :
  let L := map s2l ["x"; "1.0"; "1.0 0.0 0.0"; "0.0 1.0 0.0"; "0.0 0.0 1.0"; "1";
                    "Direct"; "0.0 0.0 0.0"; "  "]%string in
  exists h st,
    parse_head _ ToyFloat.parse ToyFloat.cmp ToyFloat.neg (mkLines 0 L) = Ok (h, st)
    /\ rest st = [s2l "  "]
    /\ from_lines _ ToyFloat.parse ToyFloat.cmp ToyFloat.neg L = validated _ (assemble _ h None).
Proof.
  intro L.
  destruct (parse_head _ ToyFloat.parse ToyFloat.cmp ToyFloat.neg (mkLines 0 L))
    as [[h st]| |] eqn:E; [|vm_compute in E; discriminate E|vm_compute in E; discriminate E].
  assert (Hr : rest st = [s2l "  "]) by (vm_compute in E; injection E; intros; subst; reflexivity).
  exists h, st. split; [reflexivity|split; [exact Hr|]].
  exact (proj1 (proj2 (no_velocities_at_end _ _ _ _ L h st E)) _ Hr eq_refl).
Defined.

(** C3: the minimal document followed by the line "C" only. *)
Lemma eof_after_velocity_control_line_witness :
  let L := map s2l ["x"; "1.0"; "1.0 0.0 0.0"; "0.0 1.0 0.0"; "0.0 0.0 1.0"; "1";
                    "Direct"; "0.0 0.0 0.0"; "C"]%string in
  exists h st,
    parse_head _ ToyFloat.parse ToyFloat.cmp ToyFloat.neg (mkLines 0 L) = Ok (h, st)
    /\ rest st = [s2l "C"]
    /\ from_lines _ ToyFloat.parse ToyFloat.cmp ToyFloat.neg L
       = Err (mkErr (Generic "unexpected end of file") (Some 9%nat) None).
Proof.
  intro L.
  destruct (parse_head _ ToyFloat.parse ToyFloat.cmp ToyFloat.neg (mkLines 0 L))
    as [[h st]| |] eqn:E; [|vm_compute in E; discriminate E|vm_compute in E; discriminate E].
  assert (Hr : st = mkLines 8 [s2l "C"]) by (vm_compute in E; injection E; intros; subst; reflexivity).
  exists h, st. split; [reflexivity|split; [subst st; reflexivity|]].
  rewrite (eof_after_velocity_control_line _ _ _ _ L h st (s2l "C") E)
    by (subst st; first [reflexivity|discriminate]).
  subst st. reflexivity.
Defined.

(** C4: a document with symbols, selective dynamics and velocities. *)
Lemma parse_raw_invariants_witness :
  let L := map s2l ["x"; "-27.0"; "1.0 0.0 0.0"; "0.0 1.0 0.0"; "0.0 0.0 1.0"; "Si Si";
                    "1 1"; "Selective dynamics"; "Cartesian"; "0.0 0.0 0.0 T F .t";
                    "1 1 1 F F F"; ""; "1 2 3"; "4 5 6"; ""; "  "]%string in
  exists r, parse_raw _ ToyFloat.parse ToyFloat.cmp ToyFloat.neg (mkLines 0 L) = Ok r
            /\ length_invariants _ r.
Proof.
  intro L.
  destruct (parse_raw _ ToyFloat.parse ToyFloat.cmp ToyFloat.neg (mkLines 0 L))
    as [r| |] eqn:E; [|vm_compute in E; discriminate E|vm_compute in E; discriminate E].
  exists r. split; [reflexivity|].
  exact (parse_raw_invariants _ _ _ _ _ r E).
Defined.

(** C9: the writer on the minimal document. *)
Lemma to_writer_total_witness :
  let r := mkPoscar _ (s2l "x") (Factor _ (Some 1%Z))
             ((Some 1%Z, Some 0%Z, Some 0%Z), (Some 0%Z, Some 1%Z, Some 0%Z),
              (Some 0%Z, Some 0%Z, Some 1%Z))
             None [1] (Frac _ [(Some 0%Z, Some 0%Z, Some 0%Z)]) None (Some [(true, false, true)]) in
  validate _ r = true /\ exists ls, write_lines _ ToyFloat.print r = Ok ls.
Proof.
  intro r.
  assert (H : validate _ r = true) by reflexivity.
  split; [exact H|exact (to_writer_total _ ToyFloat.print r H)].
Defined.

(** C10: a blank line then a line starting with 'c' after the positions. *)
Lemma blank_control_line_means_direct_witness :
  let L := map s2l ["x"; "1.0"; "1.0 0.0 0.0"; "0.0 1.0 0.0"; "0.0 0.0 1.0"; "1";
                    "Direct"; "0.0 0.0 0.0"; ""; "1 2 3 comment"]%string in
  exists h st,
    parse_head _ ToyFloat.parse ToyFloat.cmp ToyFloat.neg (mkLines 0 L) = Ok (h, st)
    /\ (forall D, from_lines _ ToyFloat.parse ToyFloat.cmp ToyFloat.neg L = Ok D ->
        exists vs, velocities _ D = Some (Frac _ vs)).
Proof.
  intro L.
  destruct (parse_head _ ToyFloat.parse ToyFloat.cmp ToyFloat.neg (mkLines 0 L))
    as [[h st]| |] eqn:E; [|vm_compute in E; discriminate E|vm_compute in E; discriminate E].
  assert (Hr : st = mkLines 8 [[]; s2l "1 2 3 comment"])
    by (vm_compute in E; injection E; intros; subst; reflexivity).
  exists h, st. split; [reflexivity|].
  exact (proj2 (blank_control_line_means_direct _ _ _ _ L h st [] (s2l "1 2 3 comment") []
                  E ltac:(subst st; reflexivity) eq_refl eq_refl)).
Defined.

(** C1: a document meeting the invariants whose species line is the symbol
    "<NBSP>1".  The symbol passes the ASCII-only symbol check, but when the
    text is read back the species line trims to "1" and is taken for the
    counts line, so reading fails at line 5. *)
Lemma roundtrip_nbsp_symbol_counterexample :
  let D := mkPoscar _ [120] (Factor _ (Some 1%Z))
             ((Some 1%Z, Some 0%Z, Some 0%Z), (Some 0%Z, Some 1%Z, Some 0%Z),
              (Some 0%Z, Some 0%Z, Some 1%Z))
             (Some [[160; 49]]) [1] (Frac _ [(Some 0%Z, Some 0%Z, Some 0%Z)]) None None in
  validate _ D = true
  /\ bind (write_text _ ToyFloat.print D)
          (from_reader _ ToyFloat.parse ToyFloat.cmp ToyFloat.neg)
     = Err (mkErr (Generic "There must be at least one atom.") (Some 5%nat) (Some 0%nat)).
Proof. split; vm_compute; reflexivity. Qed.


(** The test instance of [f64] meets the hypotheses of [parse_write_roundtrip]. *)
Lemma toy_span_digits (l r : str) :
  forallb is_digit l = true ->
  match r with c :: _ => is_digit c = false | [] => True end ->
  ToyFloat.span_digits (l ++ r) = (l, r).
Proof.
  intros Hl Hr. induction l as [|c l IH].
  - destruct r as [|c r]; [reflexivity|]. simpl. rewrite Hr. reflexivity.
  - simpl in Hl. apply andb_prop in Hl as [Hc Hl]. simpl. rewrite Hc, IH by exact Hl.
    reflexivity.
Qed.

Lemma toy_unsigned_show_N (n : N) :
  ToyFloat.unsigned_part (show_N n ++ s2l ".0") = Some n.
Proof.
  unfold ToyFloat.unsigned_part.
  rewrite toy_span_digits by (apply show_N_digits || reflexivity).
  pose proof (show_N_fold n) as Hf.
  destruct (show_N n) as [|c t] eqn:E; [exfalso; exact (show_N_nonempty n E)|].
  simpl. f_equal. exact Hf.
Qed.

Lemma toy_parse_digit (c : N) (s : str) :
  is_digit c = true ->
  ToyFloat.parse (c :: s) = option_map (fun n => Some (Z.of_N n)) (ToyFloat.unsigned_part (c :: s)).
Proof.
  intro Hd. unfold ToyFloat.parse.
  destruct (list_eq_dec N.eq_dec (c :: s) (s2l "NaN")) as [E|_].
  { injection E as Ec _. subst c. discriminate Hd. }
  destruct c as [|p]; [discriminate Hd|].
  repeat (destruct p as [p|p|]; try reflexivity); vm_compute in Hd; discriminate Hd.
Qed.

Lemma toy_dtoa_parse (x : ToyFloat.t) : ToyFloat.parse (ToyFloat.print x) = Some x.
Proof.
  destruct x as [z|]; [|reflexivity].
  unfold ToyFloat.print. destruct (z <? 0)%Z eqn:Ez.
  - apply Z.ltb_lt in Ez. unfold ToyFloat.parse.
    destruct (list_eq_dec _ _ _) as [E|_]; [discriminate E|].
    cbn [app]. rewrite toy_unsigned_show_N. simpl.
    rewrite Zabs2N.id_abs, Z.abs_neq, Z.opp_involutive by lia. reflexivity.
  - apply Z.ltb_ge in Ez. cbn [app].
    pose proof (show_N_digits (Z.abs_N z)) as Hd.
    pose proof (toy_unsigned_show_N (Z.abs_N z)) as Hu.
    destruct (show_N (Z.abs_N z)) as [|c t] eqn:E; [exfalso; exact (show_N_nonempty _ E)|].
    simpl in Hd. apply andb_prop in Hd as [Hc _].
    cbn [app] in Hu |- *. rewrite toy_parse_digit by exact Hc. rewrite Hu. simpl.
    rewrite Zabs2N.id_abs, Z.abs_eq by lia. reflexivity.
Qed.

Lemma toy_neg_parse (v : ToyFloat.t) :
  ToyFloat.cmp v = Some Lt -> ToyFloat.parse (45 :: ToyFloat.print (ToyFloat.neg v)) = Some v.
Proof.
  destruct v as [z|]; [|discriminate]. intro H.
  unfold ToyFloat.cmp in H. cbn [option_map] in H. injection H as H.
  assert (Hz : (z < 0)%Z) by exact H.
  unfold ToyFloat.neg, ToyFloat.print. cbn [option_map].
  replace (- z <? 0)%Z with false by (symmetry; apply Z.ltb_ge; lia).
  unfold ToyFloat.parse. destruct (list_eq_dec _ _ _) as [E|_]; [discriminate E|].
  cbn [app]. rewrite toy_unsigned_show_N. simpl.
  rewrite Zabs2N.id_abs, Z.abs_eq, Z.opp_involutive by lia. reflexivity.
Qed.

Lemma toy_print_word (x : ToyFloat.t) :
  ToyFloat.print x <> [] /\
  forallb (fun c => negb (is_whitespace c)) (ToyFloat.print x) = true.
Proof.
  destruct x as [z|]; [|split; [discriminate|reflexivity]].
  unfold ToyFloat.print. split.
  - destruct (z <? 0)%Z; [discriminate|]. simpl.
    pose proof (show_N_nonempty (Z.abs_N z)) as H. destruct (show_N _); [congruence|discriminate].
  - rewrite !forallb_app.
    assert (Hd : forallb (fun c => negb (is_whitespace c)) (show_N (Z.abs_N z)) = true).
    { pose proof (show_N_digits (Z.abs_N z)) as H. rewrite forallb_forall in H |- *.
      intros c Hc. rewrite digit_not_ws by (apply H, Hc). reflexivity. }
    rewrite Hd. destruct (z <? 0)%Z; reflexivity.
Qed.

(** C1: reading a document with symbols, selective dynamics and
    velocities, writing it and reading the text back. *)
Lemma parse_write_roundtrip_witness :
  let s := concat (map (fun l => s2l l ++ [10])
             ["x"; "-27.0"; "1.0 0.0 0.0"; "0.0 1.0 0.0"; "0.0 0.0 1.0"; "Si O";
              "1 2 junk"; "Selective dynamics"; "Cartesian"; "0.0 0.0 0.0 T F .t";
              "1 1 1 F F F"; "2 2 2 T T T"; ""; "1 2 3"; "4 5 6"; "7 8 9"]%string) in
  exists D, from_reader _ ToyFloat.parse ToyFloat.cmp ToyFloat.neg s = Ok D
            /\ bind (write_text _ ToyFloat.print D) (from_reader _ ToyFloat.parse ToyFloat.cmp ToyFloat.neg)
               = Ok D.
Proof.
  intro s.
  destruct (from_reader _ ToyFloat.parse ToyFloat.cmp ToyFloat.neg s) as [D| |] eqn:E;
    [|vm_compute in E; discriminate E|vm_compute in E; discriminate E].
  exists D. split; [reflexivity|].
  exact (parse_write_roundtrip _ _ _ _ _ toy_dtoa_parse toy_neg_parse toy_print_word s D E).
Defined.

(** ** Further properties of [parse.rs] and [write.rs] *)

(** *** [Spanned::words] *)

Lemma byte_len_app (a b : str) : byte_len (a ++ b) = (byte_len a + byte_len b)%nat.
Proof.
  induction a as [|c a IH]; simpl; [reflexivity|]. unfold byte_len in *. simpl. rewrite IH. lia.
Qed.

Lemma ws_before_snoc (p : str) (c : char) : ws_before (p ++ [c]) = is_ascii_whitespace c.
Proof. unfold ws_before. rewrite rev_app_distr. reflexivity. Qed.

Lemma ntok_snoc (s : str) (c : char) : ntok (s ++ [c]) = ntok s && negb (is_ascii_whitespace c).
Proof. unfold ntok. rewrite forallb_app. simpl. rewrite andb_true_r. reflexivity. Qed.

Lemma words_go_spans (s : str) (off : nat) (acc : option (nat * str)) (Pfx : str) (o : nat) (t : str) :
  off = byte_len Pfx ->
  match acc with
  | None => ws_before Pfx = true
  | Some (st, w) =>
      exists P0, Pfx = P0 ++ rev w /\ st = byte_len P0 /\ rev w <> []
                 /\ ntok (rev w) = true /\ ws_before P0 = true
  end ->
  In (o, t) (words_go s off acc) ->
  t <> [] /\ ntok t = true
  /\ exists pre post, Pfx ++ s = pre ++ t ++ post /\ o = byte_len pre
                      /\ ws_before pre = true /\ ws_after post = true.
Proof.
  revert off acc Pfx. induction s as [|c s IH]; intros off acc Pfx Hoff Hacc Hin.
  - destruct acc as [[st w]|]; simpl in Hin; [|contradiction].
    destruct Hin as [Hin|[]]. injection Hin as <- <-.
    destruct Hacc as (P0 & -> & -> & Hne & Ht & Hb).
    split; [exact Hne|split; [exact Ht|]].
    exists P0, []. rewrite !app_nil_r. auto.
  - assert (Hoff' : (off + utf8_len c)%nat = byte_len (Pfx ++ [c])).
    { rewrite byte_len_app, Hoff. unfold byte_len at 3. simpl. lia. }
    replace (Pfx ++ c :: s) with ((Pfx ++ [c]) ++ s) by (rewrite <- app_assoc; reflexivity).
    simpl in Hin. destruct (is_ascii_whitespace c) eqn:Ec.
    + assert (Hnone : ws_before (Pfx ++ [c]) = true) by (rewrite ws_before_snoc; exact Ec).
      destruct acc as [[st w]|].
      * destruct Hin as [Hin|Hin].
        -- injection Hin as <- <-.
           destruct Hacc as (P0 & -> & -> & Hne & Ht & Hb).
           split; [exact Hne|split; [exact Ht|]].
           exists P0, (c :: s). split; [|split; [reflexivity|split; [exact Hb|exact Ec]]].
           rewrite <- !app_assoc. reflexivity.
        -- exact (IH _ None _ Hoff' Hnone Hin).
      * exact (IH _ None _ Hoff' Hnone Hin).
    + destruct acc as [[st w]|].
      * apply (IH _ (Some (st, c :: w)) _ Hoff'); [|exact Hin].
        destruct Hacc as (P0 & -> & Hst & Hne & Ht & Hb).
        exists P0. simpl. rewrite <- app_assoc. repeat split; try assumption.
        -- destruct (rev w); discriminate.
        -- rewrite ntok_snoc, Ht, Ec. reflexivity.
      * apply (IH _ (Some (off, [c])) _ Hoff'); [|exact Hin].
        exists Pfx. simpl. repeat split; try assumption.
        -- discriminate.
        -- simpl. rewrite Ec. reflexivity.
Qed.

(** Each word of a line is a slice of it, on the same line, at the column
    [scol] plus the number of bytes before it: a maximal run of chars that
    are not ASCII whitespace. *)
Theorem words_are_slices (sp w : Spanned) :
  In w (words sp) ->
  sline w = sline sp /\ stext w <> [] /\ ntok (stext w) = true
  /\ exists pre post, stext sp = pre ++ stext w ++ post
                      /\ scol w = (scol sp + byte_len pre)%nat
                      /\ ws_before pre = true /\ ws_after post = true.
Proof.
  unfold words. intro H. apply in_map_iff in H as [[o t] [<- Hin]]. simpl.
  destruct (words_go_spans (stext sp) 0 None [] o t eq_refl eq_refl Hin)
    as (Hne & Ht & pre & post & He & Ho & Hb & Ha).
  split; [reflexivity|split; [exact Hne|split; [exact Ht|]]].
  exists pre, post. subst o. auto.
Qed.

Lemma toks_go_concat (s : str) (acc : option str) :
  concat (toks_go s acc)
  = rev (match acc with Some w => w | None => [] end)
    ++ filter (fun c => negb (is_ascii_whitespace c)) s.
Proof.
  revert acc. induction s as [|c s IH]; intro acc.
  - destruct acc as [w|]; simpl; rewrite ?app_nil_r; reflexivity.
  - simpl. destruct (is_ascii_whitespace c) eqn:Ec; simpl.
    + destruct acc as [w|]; simpl; rewrite IH; simpl; reflexivity.
    + rewrite IH. destruct acc as [w|]; simpl; [rewrite <- app_assoc|]; reflexivity.
Qed.

(** The words of a line hold, in order, exactly its chars that are not
    ASCII whitespace. *)
Theorem words_keep_text (sp : Spanned) :
  concat (map stext (words sp)) = filter (fun c => negb (is_ascii_whitespace c)) (stext sp).
Proof. rewrite words_texts, toks_go_concat. reflexivity. Qed.

(** *** [Lines::expect_blank_until_eof] *)

Lemma expect_blank_go_all (fuel c : nat) (ls : list str) :
  Forall (fun l => words (mkSpanned 0 0 l) = []) ls -> (length ls < fuel)%nat ->
  expect_blank_go fuel (mkLines c ls) = Ok (mkLines (c + length ls) []).
Proof.
  intro H. revert fuel c. induction H as [|l ls Hl _ IH]; intros fuel c Hf;
    (destruct fuel as [|fuel]; [simpl in Hf; lia|]).
  - simpl. rewrite Nat.add_0_r. reflexivity.
  - cbn [expect_blank_go next rest cur].
    assert (Hw : words (mkSpanned c 0 l) = []).
    { unfold words in *. simpl in *. destruct (words_go l 0 None); [reflexivity|discriminate]. }
    rewrite Hw, IH by (simpl in Hf; lia). simpl. rewrite Nat.add_succ_r. reflexivity.
Qed.

(** [expect_blank_until_eof] reads every remaining line: when none holds
    a word it succeeds at the end of the input (so a second call succeeds
    again); otherwise it fails with "expected end of file" at the first
    word of the first line that has one. *)
Theorem expect_blank_until_eof_spec (c : nat) :
  (forall ls, Forall (fun l => words (mkSpanned 0 0 l) = []) ls ->
     expect_blank_until_eof (mkLines c ls) = Ok (mkLines (c + length ls) []))
  /\ (forall pre l post w ws,
        Forall (fun p => words (mkSpanned 0 0 p) = []) pre ->
        words (mkSpanned (c + length pre) 0 l) = w :: ws ->
        expect_blank_until_eof (mkLines c (pre ++ l :: post))
        = Err (span_error w (Generic "expected end of file"))).
Proof.
  split.
  - intros ls H. unfold expect_blank_until_eof. apply expect_blank_go_all; [exact H|simpl; lia].
  - intros pre l post w ws Hpre Hw.
    unfold words in Hw. simpl in Hw.
    destruct (words_go l 0 None) as [|[o t] ws'] eqn:E; [discriminate|].
    injection Hw as <- _.
    rewrite (expect_blank_first_word pre post l o t ws' c); [reflexivity| |exact E].
    eapply Forall_impl; [|exact Hpre]. intros p Hp.
    unfold words in Hp. simpl in Hp. destruct (words_go p 0 None); [reflexivity|discriminate].
Qed.

(** *** [classify_coord_line] *)

Lemma trim_start_suffix (s : str) : exists p, s = p ++ trim_start s.
Proof.
  induction s as [|c s [p IH]]; [exists []; reflexivity|].
  simpl. destruct (is_whitespace c).
  - exists (c :: p). simpl. rewrite <- IH. reflexivity.
  - exists []. reflexivity.
Qed.

Lemma trim_end_prefix (s : str) : exists u, s = trim_end s ++ u.
Proof.
  destruct (trim_start_suffix (rev s)) as [p Hp]. exists (rev p).
  unfold trim_end. rewrite <- rev_app_distr, <- Hp, rev_involutive. reflexivity.
Qed.

Lemma trim_end_first (c : char) (t : str) :
  is_blank (c :: t) = false -> exists u, trim_end (c :: t) = c :: u.
Proof.
  intro Hb. destruct (trim_end (c :: t)) as [|d u] eqn:E.
  - apply trim_end_nil_iff in E. congruence.
  - destruct (trim_end_prefix (c :: t)) as [v Hv]. rewrite E in Hv.
    injection Hv as -> _. exists u. reflexivity.
Qed.

Lemma classify_empty_iff (s : str) :
  classify_coord_line s = EmptyOrWhitespace <-> is_blank s = true.
Proof.
  rewrite <- trim_end_nil_iff. unfold classify_coord_line.
  destruct (trim_end s) as [|c t]; [split; reflexivity|].
  split; [|discriminate].
  destruct ((c =? 99) || (c =? 67) || (c =? 107) || (c =? 75)); [discriminate|].
  destruct ((c =? 100) || (c =? 68)); [discriminate|].
  destruct (is_ascii_whitespace c); discriminate.
Qed.

Lemma classify_nonblank_first (c : char) (t : str) :
  is_blank (c :: t) = false -> classify_coord_line (c :: t) = class_of_first c.
Proof.
  intro Hb. destruct (trim_end_first c t Hb) as [u Hu].
  unfold classify_coord_line. rewrite Hu. reflexivity.
Qed.

(** A line is [EmptyOrWhitespace] exactly when it is empty or made of
    (Unicode) whitespace; any other line is classified by its first char
    alone, whitespace included. *)
Theorem classify_coord_line_spec (l : str) :
  (classify_coord_line l = EmptyOrWhitespace <-> is_blank l = true)
  /\ (forall c t, l = c :: t -> is_blank l = false -> classify_coord_line l = class_of_first c).
Proof.
  split; [apply classify_empty_iff|].
  intros c t -> Hb. exact (classify_nonblank_first c t Hb).
Qed.

(** *** The flag lines *)

Lemma has_direct_first (l : str) :
  match classify_coord_line l with Cartesian => false | _ => true end
  = negb (starts_with_one_of [99; 67; 107; 75] l).
Proof.
  destruct l as [|c t]; [reflexivity|].
  destruct (is_blank (c :: t)) eqn:Hb.
  - assert (Hc : classify_coord_line (c :: t) = EmptyOrWhitespace) by (apply classify_empty_iff; exact Hb).
    rewrite Hc. simpl in Hb. apply andb_prop in Hb as [Hw _].
    simpl. rewrite orb_false_r.
    destruct (c =? 99) eqn:E1; [apply N.eqb_eq in E1; subst c; discriminate|].
    destruct (c =? 67) eqn:E2; [apply N.eqb_eq in E2; subst c; discriminate|].
    destruct (c =? 107) eqn:E3; [apply N.eqb_eq in E3; subst c; discriminate|].
    destruct (c =? 75) eqn:E4; [apply N.eqb_eq in E4; subst c; discriminate|].
    reflexivity.
  - rewrite (classify_nonblank_first c t Hb).
    unfold class_of_first. simpl. rewrite orb_false_r, !orb_assoc.
    destruct ((c =? 99) || (c =? 67) || (c =? 107) || (c =? 75)); [reflexivity|].
    destruct ((c =? 100) || (c =? 68)); [reflexivity|].
    destruct (is_ascii_whitespace c); reflexivity.
Qed.

(** The flag lines: the first line announces selective dynamics when its
    first char (not trimmed) is [s] or [S], and the coordinate line is
    then the next one; the coordinates are Cartesian exactly when the
    coordinate line starts with one of [cCkK] (a line starting with a
    space is read as Direct). *)
Theorem flag_lines_spec (k : nat) (l : str) (r : list str) :
  flag_lines (mkLines k (l :: r)) =
  if starts_with_one_of [115; 83] l then
    match r with
    | [] => Err (eof_error (mkLines (S k) []))
    | l2 :: r' => Ok (negb (starts_with_one_of [99; 67; 107; 75] l2), true, mkLines (S (S k)) r')
    end
  else Ok (negb (starts_with_one_of [99; 67; 107; 75] l), false, mkLines (S k) r).
Proof.
  unfold flag_lines. cbn [next rest cur bind control_char stext].
  destruct l as [|c t].
  - reflexivity.
  - unfold control_char. cbn [hd_error stext starts_with_one_of existsb]. rewrite orb_false_r.
    destruct ((c =? 115) || (c =? 83)).
    + destruct r as [|l2 r']; [reflexivity|]. cbn [next rest cur bind stext].
      rewrite has_direct_first. reflexivity.
    + cbn [bind stext]. rewrite has_direct_first. reflexivity.
Qed.

(** *** Counts: [Unsigned] and the counts line *)

Lemma u64_digits_spec (s : str) (a n : N) :
  a < u64_bound ->
  u64_digits s a = Some n
  <-> forallb is_digit s = true /\ fold_left dec_step s a = n /\ n < u64_bound.
Proof.
  intro Ha. split.
  - revert a Ha. induction s as [|c s IH]; intros a Ha H; simpl in H.
    + injection H as <-. auto.
    + destruct (is_digit c) eqn:Ec; [|discriminate].
      destruct (a * 10 + (c - 48) <? u64_bound) eqn:Eb; [|discriminate].
      apply N.ltb_lt in Eb. destruct (IH _ Eb H) as (Hd & Hf & Hn).
      simpl. rewrite Ec. auto.
  - intros (Hd & <- & Hn). apply u64_digits_fold; assumption.
Qed.

(** [Unsigned] accepts exactly the non-empty strings of decimal digits
    whose value is below [2^64] (leading zeros allowed), and gives that
    value. *)
Theorem unsigned_from_str_spec (s : str) (n : N) :
  unsigned_from_str s = Some n
  <-> s <> [] /\ forallb is_digit s = true /\ dec_value s = n /\ n < u64_bound.
Proof.
  assert (Hv : dec_value s = fold_left dec_step s 0) by reflexivity. rewrite Hv.
  destruct s as [|c s].
  { split; [discriminate|]. intros (H & _). congruence. }
  destruct (N.eq_dec c 43) as [->|H43].
  { split; [discriminate|]. intros (_ & H & _). discriminate. }
  rewrite unsigned_not_plus by exact H43.
  assert (Hc : (c =? 43) = false) by (apply N.eqb_neq; exact H43).
  assert (Hu : u64_from_str (c :: s) = Some n
               <-> forallb is_digit (c :: s) = true /\ fold_left dec_step (c :: s) 0 = n
                   /\ n < u64_bound).
  { destruct s as [|c' s'].
    - unfold u64_from_str. rewrite Hc. simpl orb.
      destruct (N.eq_dec c 45) as [->|H45].
      + split; [discriminate|]. intros (H & _). discriminate.
      + replace (c =? 45) with false by (symmetry; apply N.eqb_neq; exact H45).
        apply u64_digits_spec. reflexivity.
    - unfold u64_from_str. rewrite Hc. apply u64_digits_spec. reflexivity. }
  rewrite Hu. split; [intros H; split; [discriminate|exact H]|intros [_ H]; exact H].
Qed.

(** The counts are the values of the longest run of words, from the
    start of the counts line, that [Unsigned] accepts; the first word it
    refuses and everything after it are ignored. *)
Theorem take_counts_prefix (ws : list Spanned) :
  exists pre post, ws = pre ++ post
    /\ map (fun w => unsigned_from_str (stext w)) pre = map Some (take_counts ws)
    /\ match post with [] => True | w :: _ => unsigned_from_str (stext w) = None end.
Proof.
  induction ws as [|w ws (pre & post & -> & Hm & Hp)].
  - exists [], []. repeat split.
  - simpl. destruct (unsigned_from_str (stext w)) as [x|] eqn:E.
    + exists (w :: pre), post. simpl. rewrite E, Hm. auto.
    + exists [], (w :: pre ++ post). simpl. auto.
Qed.

(** *** The symbols stage *)

Lemma parse_symbols_valid (ws : list Spanned) (s : list str) :
  parse_symbols ws = Ok s -> forallb is_valid_symbol_for_symbol_line s = true.
Proof.
  unfold parse_symbols. revert s. induction ws as [|w ws IH]; intros s H; simpl in H.
  - injection H as <-. reflexivity.
  - destruct (is_valid_symbol_for_symbol_line (stext w)) eqn:Ev; cbn [bind] in H; [|discriminate].
    destruct (mapM _ ws) as [s'| |] eqn:E; cbn [bind] in H; try discriminate.
    injection H as <-. simpl. rewrite Ev. exact (IH s' eq_refl).
Qed.

(** When the symbols stage succeeds, the first char of the line that is
    not whitespace decides: a digit means the line is the counts line and
    nothing is consumed; anything else means the line holds the symbols
    (all of its words, each a valid symbol), and the counts line is the
    next one. *)
Theorem symbols_stage_spec (line cl : Spanned) (st st' : Lines) (syms : option (list str)) :
  symbols_stage line st = Ok (syms, cl, st') ->
  exists c, first_nonws (stext line) = Some c
  /\ match syms with
     | None => is_digit c = true /\ cl = line /\ st' = st
     | Some s => is_digit c = false /\ s = map stext (words line) /\ s <> []
                 /\ forallb is_valid_symbol_for_symbol_line s = true /\ next st = Ok (cl, st')
     end.
Proof.
  unfold symbols_stage. intro H.
  destruct (words line) as [|w ws] eqn:Ew; cbn [next_or_err bind] in H; [discriminate|].
  rewrite <- trim_first.
  destruct (trim (stext line)) as [|c t]; [discriminate|].
  exists c. split; [reflexivity|].
  destruct (is_digit c) eqn:Hd.
  - injection H as <- <- <-. auto.
  - destruct (parse_symbols (w :: ws)) as [k| |] eqn:Ep; cbn [bind] in H; try discriminate.
    destruct (next st) as [[cl' st0]| |] eqn:En; cbn [bind] in H; try discriminate.
    injection H as <- <- <-.
    pose proof (parse_symbols_valid _ _ Ep) as Hv.
    pose proof (parse_symbols_inv _ _ Ep) as Hk. subst k.
    split; [reflexivity|split; [reflexivity|split; [simpl; discriminate|split; [exact Hv|reflexivity]]]].
Qed.

(** A line after the lattice that holds a word but is made only of
    whitespace (for instance a lone U+00A0, which is not ASCII whitespace
    but which [str::trim] removes) makes [as_bytes()[0]] index an empty
    slice: the parser panics instead of returning an error. *)
Theorem symbols_stage_blank_word_panics (line : Spanned) (st : Lines) :
  words line <> [] -> is_blank (stext line) = true ->
  symbols_stage line st = Panic "index out of bounds".
Proof.
  intros Hw Hb. unfold symbols_stage.
  destruct (words line) as [|w ws]; [congruence|]. cbn [next_or_err bind].
  apply trim_nil_iff in Hb. rewrite Hb. reflexivity.
Qed.

(** The counts line [to_writer] writes (each count right-aligned to two
    columns, separated by spaces) is read back as the same counts, with
    no symbols line, when their sum is positive and fits in [usize]. *)
Theorem counts_line_reread (i : nat) (st : Lines) (cn : list N) :
  0 < sumN cn < u64_bound ->
  counts_block (mkSpanned i 0 (counts_text cn)) st = Ok (None, cn, sumN cn, st).
Proof.
  intro H. apply (counts_block_reread_none unit (fun _ => None)); [apply usize_sum_small|]; lia.
Qed.

(** The symbols line [to_writer] writes, followed by its counts line, is
    read back as the same symbols and counts, when the symbols are valid,
    as many as the counts, and the line's first char that is not
    whitespace is not a digit. *)
Theorem symbols_line_reread (i : nat) (r s : list str) (cn : list N) :
  forallb is_valid_symbol_for_symbol_line s = true -> length s = length cn ->
  (exists c, first_nonws (concat s) = Some c /\ is_digit c = false) ->
  0 < sumN cn < u64_bound ->
  counts_block (mkSpanned i 0 (symbols_text s)) (mkLines (S i) (counts_text cn :: r))
  = Ok (Some s, cn, sumN cn, mkLines (S (S i)) r).
Proof.
  intros Hv Hl Hc H. apply (counts_block_reread_some unit (fun _ => None)); try assumption.
  - apply usize_sum_small. lia.
  - lia.
Qed.

(** *** Lines of the input: [BufRead::lines] under [Poscar::from_reader] *)

Lemma lines_go_crlf (l r acc : str) :
  no_lf l = true -> lines_go (l ++ 13 :: 10 :: r) acc = (rev acc ++ l) :: lines_go r [].
Proof.
  revert acc. induction l as [|c l IH]; intros acc H.
  - simpl. rewrite app_nil_r. reflexivity.
  - simpl in H. apply andb_prop in H as [Hc H]. apply negb_true_iff in Hc.
    simpl. rewrite Hc, IH by exact H. simpl. rewrite <- app_assoc. reflexivity.
Qed.

Lemma lines_go_lf (l r acc : str) :
  no_lf l = true -> no_final_cr (rev acc ++ l) = true ->
  lines_go (l ++ 10 :: r) acc = (rev acc ++ l) :: lines_go r [].
Proof.
  revert acc. induction l as [|c l IH]; intros acc H Hcr.
  - simpl. rewrite app_nil_r in *. destruct acc as [|a acc']; [reflexivity|].
    unfold no_final_cr in Hcr. rewrite rev_involutive in Hcr.
    rewrite lines_go_keep; [reflexivity|]. intros ->. discriminate.
  - simpl in H. apply andb_prop in H as [Hc H]. apply negb_true_iff in Hc.
    simpl. rewrite Hc, IH by (exact H || (simpl; rewrite <- app_assoc; exact Hcr)).
    simpl. rewrite <- app_assoc. reflexivity.
Qed.

Lemma lines_go_last (l acc : str) :
  no_lf l = true -> lines_go l acc = match rev acc ++ l with [] => [] | x => [x] end.
Proof.
  revert acc. induction l as [|c l IH]; intros acc H.
  - rewrite app_nil_r. destruct acc as [|a acc]; [reflexivity|].
    simpl. destruct (rev acc ++ [a]) eqn:E; [|reflexivity].
    destruct (rev acc); discriminate.
  - simpl in H. apply andb_prop in H as [Hc H]. apply negb_true_iff in Hc.
    simpl. rewrite Hc, IH by exact H. simpl. rewrite <- app_assoc. reflexivity.
Qed.

Lemma lines_of_framed (term : str) (ls : list str) (l : str) :
  (forall x r, In x ls -> lines_go (x ++ term ++ r) [] = x :: lines_go r []) ->
  no_lf l = true ->
  lines_of (text_of term ls ++ l) = ls ++ match l with [] => [] | _ => [l] end.
Proof.
  unfold lines_of, text_of. intros Hx Hl. induction ls as [|x ls IH]; simpl.
  - rewrite lines_go_last by exact Hl. destruct l; reflexivity.
  - rewrite <- !app_assoc, Hx by (left; reflexivity). f_equal.
    apply IH. intros y r Hy. apply Hx. right. exact Hy.
Qed.

(** [from_reader] reads the lines of its input split at LF: a CR just
    before an LF is dropped, so CRLF and LF endings give the same lines,
    and a last line without a newline is read too (with any final CR kept). *)
Theorem from_reader_line_endings {F} (parse_f64 : str -> option F)
    (fcmp : F -> option comparison) (fneg : F -> F) (ls : list str) (l : str) :
  Forall (fun x => no_lf x = true) ls -> no_lf l = true ->
  from_reader F parse_f64 fcmp fneg (text_of [13; 10] ls ++ l)
  = from_lines F parse_f64 fcmp fneg (ls ++ match l with [] => [] | _ => [l] end)
  /\ (Forall (fun x => no_final_cr x = true) ls ->
      from_reader F parse_f64 fcmp fneg (text_of [10] ls ++ l)
      = from_lines F parse_f64 fcmp fneg (ls ++ match l with [] => [] | _ => [l] end)).
Proof.
  intros Hls Hl. unfold from_reader. rewrite Forall_forall in Hls. split.
  - rewrite lines_of_framed; [reflexivity| |exact Hl].
    intros x r Hx. apply lines_go_crlf, Hls, Hx.
  - intro Hcr. rewrite Forall_forall in Hcr. rewrite lines_of_framed; [reflexivity| |exact Hl].
    intros x r Hx. apply lines_go_lf; [apply Hls, Hx|apply Hcr, Hx].
Qed.

(** *** [to_writer] *)

Lemma write_positions_length {F} (dtoa : F -> str) (i : nat) (ps : list (v3 F)) dyn out :
  write_positions F dtoa i ps dyn = Ok out -> length out = length ps.
Proof.
  revert i out. induction ps as [|c ps IH]; intros i out H; simpl in H.
  - injection H as <-. reflexivity.
  - destruct (match dyn with Some _ => _ | None => _ end) as [line| |]; cbn [bind] in H;
      try discriminate.
    destruct (write_positions F dtoa (S i) ps dyn) as [o| |] eqn:E; cbn [bind] in H;
      try discriminate.
    injection H as <-. simpl. f_equal. exact (IH _ _ E).
Qed.

(** [to_writer] writes one line per position and, with velocities, a
    header line and one line per velocity, after seven lines (comment,
    scale, three lattice vectors, counts, coordinate header) and the
    optional symbols and selective dynamics lines; the first line is the
    comment. *)
Theorem write_lines_shape {F} (dtoa : F -> str) (r : RawPoscar F) (ls : list str) :
  write_lines F dtoa r = Ok ls ->
  hd_error ls = Some (comment F r)
  /\ length ls = (7 + match group_symbols F r with Some _ => 1 | None => 0 end
                  + match dynamics F r with Some _ => 1 | None => 0 end
                  + length (coords_raw F (positions F r))
                  + match velocities F r with Some v => S (length (coords_raw F v)) | None => 0 end)%nat.
Proof.
  unfold write_lines. intro H.
  destruct (existsb _ (comment F r)); [discriminate|].
  destruct (existsb _ (comment F r)); [discriminate|].
  destruct (lattice_vectors F r) as [[a b] c].
  destruct (group_counts F r) as [|c0 cs]; [discriminate|].
  destruct (write_positions F dtoa 0 _ _) as [ps| |] eqn:Ep; cbn [bind] in H; try discriminate.
  apply write_positions_length in Ep.
  injection H as <-. split; [reflexivity|].
  destruct (group_symbols F r), (dynamics F r), (velocities F r) as [v|];
    cbn [length app]; rewrite ?length_app; cbn [length]; rewrite ?length_map, ?Ep; unfold v3 in *; lia.
Qed.

Lemma write_positions_short {F} (dtoa : F -> str) (i : nat) (ps : list (v3 F)) d :
  (i <= length d)%nat -> (length d < i + length ps)%nat ->
  write_positions F dtoa i ps (Some d) = Panic "index out of bounds".
Proof.
  revert i. induction ps as [|c ps IH]; intros i Hi H; simpl in H; [lia|].
  simpl. destruct (nth_error d i) as [b|] eqn:E; [|reflexivity].
  assert (i < length d)%nat by (apply nth_error_Some; congruence).
  cbn [bind]. rewrite IH by lia. reflexivity.
Qed.

(** [to_writer] indexes [dynamics[i]] for each position: a document whose
    selective dynamics flags are fewer than its positions (so one that
    breaks the invariants) makes it panic, once the comment and counts
    assertions have passed. *)
Theorem write_lines_short_dynamics_panics {F} (dtoa : F -> str) (r : RawPoscar F)
    (d : list (bool * bool * bool)) :
  existsb (fun c => c =? 10) (comment F r) = false ->
  existsb (fun c => c =? 13) (comment F r) = false ->
  group_counts F r <> [] -> dynamics F r = Some d ->
  (length d < length (coords_raw F (positions F r)))%nat ->
  write_lines F dtoa r = Panic "index out of bounds".
Proof.
  intros H10 H13 Hc Hd Hl. unfold write_lines. rewrite H10, H13.
  destruct (lattice_vectors F r) as [[a b] c].
  destruct (group_counts F r) as [|c0 cs]; [congruence|].
  rewrite Hd, write_positions_short by lia. reflexivity.
Qed.

(** *** The velocity block *)

(** When velocities are read, they are Cartesian exactly when the first
    line after the positions (the velocity control line) starts with one
    of [cCkK]; every other control line, blank or not, gives Direct
    velocities. *)
Theorem velocities_block_cartesian {F} (parse_f64 : str -> option F) (n : N) (k : nat)
    (l : str) (r : list str) (v : Coords F) (st' : Lines) :
  velocities_block F parse_f64 n (mkLines k (l :: r)) = Ok (Some v, st') ->
  ((exists xs, v = Cart F xs) <-> starts_with_one_of [99; 67; 107; 75] l = true).
Proof.
  unfold velocities_block. cbn [next rest cur stext]. intro H.
  pose proof (has_direct_first l) as Hd.
  destruct (classify_coord_line l); cbn iota in H, Hd;
    (destruct r as [|l2 r']; cbn [next rest cur stext] in H; [discriminate H|]);
    try (destruct (trim l2); cbn iota in H;
         [destruct (expect_blank_until_eof _); cbn [bind] in H; discriminate H|]);
    (destruct (n =? 0); [discriminate H|]);
    (destruct (read3 _ _ _ _) as [[v0 ws]| |]; cbn [bind] in H; try discriminate H);
    (destruct (velocity_lines _ _ _ _) as [[vs st2]| |]; cbn [bind] in H; try discriminate H);
    injection H as <- _;
    (destruct (starts_with_one_of [99; 67; 107; 75] l); simpl in Hd; try discriminate Hd);
    split; solve [intros [xs Hx]; discriminate Hx | eexists; reflexivity | reflexivity
                 | discriminate].
Qed.

(** *** Where an input that ends too early is reported *)

Lemma next_eof (st : Lines) : eof_at_end st (next st).
Proof.
  destruct st as [c [|l ls]]; simpl.
  - intros _. rewrite Nat.add_0_r. auto.
  - lia.
Qed.

Lemma bind_eof {A B} (st : Lines) (m : res (A * Lines)) (f : A * Lines -> res (B * Lines)) :
  eof_at_end st m ->
  (forall a st', m = Ok (a, st') -> eof_at_end st' (f (a, st'))) ->
  eof_at_end st (bind m f).
Proof.
  intros Hm Hf. destruct m as [[a st']| |] eqn:E; cbn [bind]; [|exact Hm|exact I].
  specialize (Hf a st' eq_refl). simpl in Hm.
  destruct (f (a, st')) as [[b st'']| |]; simpl in *; [lia| |exact I].
  intro Hk. rewrite <- Hm. exact (Hf Hk).
Qed.

Lemma bind_no_eof {A B} (st : Lines) (m : res A) (f : A -> res (B * Lines)) :
  no_eof_err m -> (forall a, m = Ok a -> eof_at_end st (f a)) -> eof_at_end st (bind m f).
Proof.
  intros Hm Hf. destruct m as [a|e|msg] eqn:E; cbn [bind]; [exact (Hf a eq_refl)| |exact I].
  intro Hk. exfalso. exact (Hm e eq_refl Hk).
Qed.

Lemma ok_eof {A} (st : Lines) (a : A) : eof_at_end st (Ok (a, st)).
Proof. reflexivity. Qed.

Lemma no_eof_bind {A B} (m : res A) (f : A -> res B) :
  no_eof_err m -> (forall a, m = Ok a -> no_eof_err (f a)) -> no_eof_err (bind m f).
Proof.
  intros Hm Hf e. destruct m as [a|e'|msg] eqn:E; cbn [bind]; [exact (Hf a eq_refl e)| |discriminate].
  intro H. injection H as <-. exact (Hm e' eq_refl).
Qed.

Lemma next_or_err_no_eof (sp : Spanned) (ws : list Spanned) (msg : string) :
  msg <> "unexpected end of file"%string -> no_eof_err (next_or_err sp ws msg).
Proof.
  intros Hm e. destruct ws; simpl; intro H; [|discriminate].
  injection H as <-. simpl. congruence.
Qed.

Lemma parse_float_no_eof {F} (parse_f64 : str -> option F) (w : Spanned) :
  no_eof_err (parse_float F parse_f64 w).
Proof.
  intros e. unfold parse_float. destruct (parse_f64 (stext w)); intro H; [discriminate|].
  injection H as <-. discriminate.
Qed.

Lemma read3_no_eof {F} (parse_f64 : str -> option F) (line : Spanned) (ws : list Spanned)
    (msg : string) :
  msg <> "unexpected end of file"%string -> no_eof_err (read3 F parse_f64 line ws msg).
Proof.
  intro Hm. unfold read3.
  repeat (apply no_eof_bind; [first [apply next_or_err_no_eof; exact Hm
                                    | apply parse_float_no_eof]|];
          intros [? ?] _ || intros ? _; cbn iota beta).
  intros e H. discriminate.
Qed.

Lemma span_error_no_eof {A} (w : Spanned) (msg : string) :
  msg <> "unexpected end of file"%string -> no_eof_err (@Err A (span_error w (Generic msg))).
Proof. intros Hm e H. injection H as <-. simpl. congruence. Qed.

Lemma ok_no_eof {A} (a : A) : no_eof_err (Ok a).
Proof. intros e H. discriminate. Qed.

Lemma panic_no_eof {A} (m : string) : no_eof_err (@Panic A m).
Proof. intros e H. discriminate. Qed.

Ltac eof_step :=
  first [ apply ok_no_eof | apply panic_no_eof
        | apply span_error_no_eof; discriminate
        | apply next_or_err_no_eof; discriminate
        | apply read3_no_eof; discriminate
        | apply parse_float_no_eof
        | apply ok_eof
        | apply next_eof
        | let Hk := fresh "Hk" in intro Hk; cbn in Hk; discriminate Hk ].

Lemma scale_of_line_no_eof {F} (parse_f64 : str -> option F) (fcmp : F -> option comparison)
    (fneg : F -> F) (line : Spanned) :
  no_eof_err (scale_of_line F parse_f64 fcmp fneg line).
Proof.
  unfold scale_of_line.
  apply no_eof_bind; [eof_step|]. intros [w ws] _. cbn iota.
  apply no_eof_bind; [eof_step|]. intros value _.
  apply no_eof_bind; [destruct (fcmp value) as [[| |]|]; eof_step|]. intros scale _.
  destruct ws as [|w' ws']; [eof_step|]. destruct (parse_f64 (stext w')); eof_step.
Qed.

Lemma read_flag_no_eof (line : Spanned) (ws : list Spanned) : no_eof_err (read_flag line ws).
Proof.
  unfold read_flag. apply no_eof_bind; [eof_step|]. intros [w ws'] _. cbn iota.
  destruct (logical_from_str (stext w)); [eof_step|].
  intros e H. injection H as <-. discriminate.
Qed.

Lemma position_line_no_eof {F} (parse_f64 : str -> option F) (sd : bool) (line : Spanned) :
  no_eof_err (position_line F parse_f64 sd line).
Proof.
  unfold position_line. apply no_eof_bind; [eof_step|]. intros [p ws] _. cbn iota.
  destruct sd; [|eof_step].
  apply no_eof_bind; [apply read_flag_no_eof|]. intros [b0 ws0] _. cbn iota.
  apply no_eof_bind; [apply read_flag_no_eof|]. intros [b1 ws1] _. cbn iota.
  apply no_eof_bind; [apply read_flag_no_eof|]. intros [b2 ws2] _. cbn iota.
  eof_step.
Qed.

Lemma parse_symbols_no_eof (ws : list Spanned) : no_eof_err (parse_symbols ws).
Proof.
  unfold parse_symbols. induction ws as [|w ws IH]; simpl; [eof_step|].
  apply no_eof_bind; [destruct (is_valid_symbol_for_symbol_line (stext w)); eof_step|].
  intros a _. apply no_eof_bind; [exact IH|]. intros b _. eof_step.
Qed.

Lemma usize_sum_no_eof (xs : list N) : no_eof_err (usize_sum xs).
Proof.
  unfold usize_sum. generalize 0. induction xs as [|x xs IH]; intro acc; simpl; [eof_step|].
  destruct (acc + x <? u64_bound); [apply IH|eof_step].
Qed.

Lemma lattice_row_eof {F} (parse_f64 : str -> option F) (st : Lines) :
  eof_at_end st (lattice_row F parse_f64 st).
Proof.
  unfold lattice_row. apply bind_eof; [eof_step|]. intros line st1 _. cbn iota.
  apply bind_no_eof; [eof_step|]. intros [v ws] _. eof_step.
Qed.

Lemma symbols_stage_eof (line : Spanned) (st : Lines) : eof_at_end st (symbols_stage line st).
Proof.
  unfold symbols_stage. apply bind_no_eof; [eof_step|]. intros _ _.
  destruct (trim (stext line)) as [|c t]; [exact I|].
  destruct (is_digit c); [eof_step|].
  apply bind_no_eof; [apply parse_symbols_no_eof|]. intros kinds _.
  apply bind_eof; [eof_step|]. intros cl st1 _. eof_step.
Qed.

Lemma counts_block_eof (line : Spanned) (st : Lines) : eof_at_end st (counts_block line st).
Proof.
  unfold counts_block. apply bind_eof; [apply symbols_stage_eof|].
  intros [syms cl] st1 _. cbn iota.
  apply bind_no_eof.
  { destruct syms as [s|]; [destruct (Nat.eqb _ _)|]; eof_step. }
  intros _ _. apply bind_no_eof; [apply usize_sum_no_eof|]. intros n _.
  destruct (n =? 0); eof_step.
Qed.

Lemma eof_at_end_shift {A} (st st' : Lines) (m : res (A * Lines)) :
  (cur st' + length (rest st') = cur st + length (rest st))%nat ->
  eof_at_end st' m -> eof_at_end st m.
Proof.
  intros Ht H. destruct m as [[a s]| |]; simpl in *; [lia| |exact I].
  rewrite <- Ht. exact H.
Qed.

Lemma flag_lines_eof (st : Lines) : eof_at_end st (flag_lines st).
Proof.
  unfold flag_lines. apply bind_eof; [eof_step|]. intros line st1 _. cbn iota.
  apply bind_eof.
  - destruct (control_char line) as [c|]; [destruct ((c =? 115) || (c =? 83))|]; [|eof_step|eof_step].
    apply bind_eof; [eof_step|]. intros l st2 _. eof_step.
  - intros [sd l] st2 _. eof_step.
Qed.

Lemma position_lines_eof {F} (parse_f64 : str -> option F) (k : nat) (sd : bool) (st : Lines) :
  eof_at_end st (position_lines F parse_f64 k sd st).
Proof.
  revert st. induction k as [|k IH]; intro st; cbn [position_lines]; [eof_step|].
  apply bind_eof; [eof_step|]. intros line st1 _. cbn iota.
  apply bind_no_eof; [apply position_line_no_eof|]. intros [p d] _.
  apply bind_eof; [apply IH|]. intros [ps ds] st2 _. eof_step.
Qed.

Lemma velocity_lines_eof {F} (parse_f64 : str -> option F) (k : nat) (st : Lines) :
  eof_at_end st (velocity_lines F parse_f64 k st).
Proof.
  revert st. induction k as [|k IH]; intro st; cbn [velocity_lines]; [eof_step|].
  apply bind_eof; [eof_step|]. intros line st1 _. cbn iota.
  apply bind_no_eof; [eof_step|]. intros [v ws] _.
  apply bind_eof; [apply IH|]. intros vs st2 _. eof_step.
Qed.

Lemma expect_blank_go_eof (fuel : nat) (st : Lines) :
  (forall st', expect_blank_go fuel st = Ok st' ->
     (cur st' + length (rest st') = cur st + length (rest st))%nat)
  /\ no_eof_err (expect_blank_go fuel st).
Proof.
  revert st. induction fuel as [|fuel IH]; intro st; cbn [expect_blank_go].
  - split; [intros st' H; injection H as <-; reflexivity|eof_step].
  - pose proof (next_eof st) as Hn.
    destruct (next st) as [[l st1]| |]; [|split; [intros st' H; injection H as <-; reflexivity|eof_step]
                                          |split; [intros st' H; injection H as <-; reflexivity|eof_step]].
    simpl in Hn. destruct (words l) as [|w ws]; [|split; [discriminate|eof_step]].
    destruct (IH st1) as [H1 H2]. split; [|exact H2].
    intros st' H. rewrite (H1 st' H). exact Hn.
Qed.

Lemma velocities_block_eof {F} (parse_f64 : str -> option F) (n : N) (st : Lines) :
  eof_at_end st (velocities_block F parse_f64 n st).
Proof.
  unfold velocities_block. pose proof (next_eof st) as H1.
  destruct (next st) as [[line st1]| |]; [|eof_step|exact I].
  simpl in H1. apply (eof_at_end_shift st st1); [exact H1|].
  pose proof (next_eof st1) as H2.
  destruct (classify_coord_line (stext line)); cbn iota.
  all: destruct (next st1) as [[l2 st2]|e|m].
  all: try (simpl in H2; apply (eof_at_end_shift st1 st2 _ H2)).
  all: try exact I.
  all: try exact H2.
  all: try apply ok_eof.
  all: try (destruct (trim (stext l2)) as [|t0 tl]; [|]).
  all: try ((destruct (n =? 0); [exact I|]);
        (apply bind_no_eof; [eof_step|]); intros [v0 ws] _;
        (apply bind_eof; [apply velocity_lines_eof|]); intros vs st3 _; eof_step).
  destruct (expect_blank_go_eof (S (length (rest st2))) st2) as [Hb1 Hb2].
  unfold expect_blank_until_eof.
  destruct (expect_blank_go (S (length (rest st2))) st2) as [st3|e3|m3]; cbn [bind].
  - exact (Hb1 st3 eq_refl).
  - intro Hk; exfalso; exact (Hb2 _ eq_refl Hk).
  - exact I.
Qed.

Lemma parse_head_eof {F} (parse_f64 : str -> option F) (fcmp : F -> option comparison)
    (fneg : F -> F) (st : Lines) :
  eof_at_end st (parse_head F parse_f64 fcmp fneg st).
Proof.
  unfold parse_head.
  apply bind_eof; [eof_step|]. intros cline st1 _. cbn iota.
  apply bind_eof; [eof_step|]. intros sline st2 _. cbn iota.
  apply bind_no_eof; [apply scale_of_line_no_eof|]. intros scale _.
  apply bind_eof; [apply lattice_row_eof|]. intros a st3 _. cbn iota.
  apply bind_eof; [apply lattice_row_eof|]. intros b st4 _. cbn iota.
  apply bind_eof; [apply lattice_row_eof|]. intros c st5 _. cbn iota.
  apply bind_eof; [eof_step|]. intros line st6 _. cbn iota.
  apply bind_eof; [apply counts_block_eof|]. intros [[syms counts] n] st7 _. cbn iota.
  apply bind_eof; [apply flag_lines_eof|]. intros [hd sd] st8 _. cbn iota.
  apply bind_eof; [apply position_lines_eof|]. intros [ps ds] st9 _. cbn iota.
  eof_step.
Qed.

(** Every "unexpected end of file" error of [_from_reader] is reported on
    the line just past the last line of the input (zero-based: the
    number of lines), with no column. *)
Theorem from_lines_eof_position {F} (parse_f64 : str -> option F)
    (fcmp : F -> option comparison) (fneg : F -> F) (ls : list str) (e : ParseError) :
  from_lines F parse_f64 fcmp fneg ls = Err e ->
  kind e = Generic "unexpected end of file" ->
  eline e = Some (length ls) /\ ecol e = None.
Proof.
  unfold from_lines, parse_raw. intros H Hk.
  pose proof (parse_head_eof parse_f64 fcmp fneg (mkLines 0 ls)) as H1.
  destruct (parse_head F parse_f64 fcmp fneg (mkLines 0 ls)) as [[h st1]|e1|m];
    cbn [bind] in H; [|injection H as ->; exact (H1 Hk)|discriminate H].
  simpl in H1.
  pose proof (velocities_block_eof parse_f64 (h_n F h) st1) as H2.
  destruct (velocities_block F parse_f64 (h_n F h) st1) as [[vel st2]|e2|m];
    cbn [bind] in H; [|injection H as ->; simpl in H2; rewrite H1 in H2; exact (H2 Hk)
                     |discriminate H].
  destruct (expect_blank_go_eof (S (length (rest st2))) st2) as [_ H3].
  unfold expect_blank_until_eof in H.
  destruct (expect_blank_go _ st2) as [st3|e3|m] eqn:E3; cbn [bind] in H.
  - unfold validated in H. destruct (validate _ _); discriminate H.
  - injection H as ->. exfalso. exact (H3 _ eq_refl Hk).
  - discriminate H.
Qed.

(** ** Concrete runs of the further properties *)

(** The word "Si" of the line "  Si O". *)
Lemma words_are_slices_witness :
  In (mkSpanned 2 2 (s2l "Si")) (words (mkSpanned 2 0 (s2l "  Si O")))
  /\ sline (mkSpanned 2 2 (s2l "Si")) = sline (mkSpanned 2 0 (s2l "  Si O"))
  /\ stext (mkSpanned 2 2 (s2l "Si")) <> [] /\ ntok (stext (mkSpanned 2 2 (s2l "Si"))) = true
  /\ exists pre post, stext (mkSpanned 2 0 (s2l "  Si O"))
                      = pre ++ stext (mkSpanned 2 2 (s2l "Si")) ++ post
       /\ scol (mkSpanned 2 2 (s2l "Si")) = (scol (mkSpanned 2 0 (s2l "  Si O")) + byte_len pre)%nat
       /\ ws_before pre = true /\ ws_after post = true.
Proof.
  assert (H : In (mkSpanned 2 2 (s2l "Si")) (words (mkSpanned 2 0 (s2l "  Si O"))))
    by (vm_compute; left; reflexivity).
  split; [exact H|exact (words_are_slices _ _ H)].
Defined.

(** A line of blanks at line 3, then a line whose word "x" stops the scan. *)
Lemma expect_blank_until_eof_spec_witness :
  Forall (fun l => words (mkSpanned 0 0 l) = []) [s2l "  "; []]
  /\ expect_blank_until_eof (mkLines 3 [s2l "  "; []]) = Ok (mkLines 5 [])
  /\ Forall (fun p => words (mkSpanned 0 0 p) = []) [[]]
  /\ words (mkSpanned 4 0 (s2l " x")) = [mkSpanned 4 1 (s2l "x")]
  /\ expect_blank_until_eof (mkLines 3 [[]; s2l " x"; s2l "y"])
     = Err (span_error (mkSpanned 4 1 (s2l "x")) (Generic "expected end of file")).
Proof.
  assert (H1 : Forall (fun l => words (mkSpanned 0 0 l) = []) [s2l "  "; []])
    by (repeat constructor).
  assert (H2 : Forall (fun p => words (mkSpanned 0 0 p) = []) [[]]) by (repeat constructor).
  assert (H3 : words (mkSpanned 4 0 (s2l " x")) = [mkSpanned 4 1 (s2l "x")]) by reflexivity.
  split; [exact H1|split; [exact (proj1 (expect_blank_until_eof_spec 3) _ H1)|]].
  split; [exact H2|split; [exact H3|]].
  exact (proj2 (expect_blank_until_eof_spec 3) [[]] (s2l " x") [s2l "y"] _ [] H2 H3).
Defined.

(** A blank line, and a line that starts with a space. *)
Lemma classify_coord_line_spec_witness :
  is_blank (s2l " c") = false
  /\ classify_coord_line (s2l " c") = class_of_first 32
  /\ is_blank (s2l " ") = true /\ classify_coord_line (s2l " ") = EmptyOrWhitespace.
Proof.
  assert (H : is_blank (s2l " c") = false) by reflexivity.
  assert (H' : is_blank (s2l " ") = true) by reflexivity.
  split; [exact H|split; [exact (proj2 (classify_coord_line_spec _) 32 (s2l "c") eq_refl H)|]].
  split; [exact H'|exact (proj2 (proj1 (classify_coord_line_spec _)) H')].
Defined.

(** A symbols line "Si O" over the counts line "1 2". *)
Lemma symbols_stage_spec_witness :
  symbols_stage (mkSpanned 5 0 (s2l "Si O")) (mkLines 6 [s2l "1 2"])
  = Ok (Some [s2l "Si"; s2l "O"], mkSpanned 6 0 (s2l "1 2"), mkLines 7 [])
  /\ exists c, first_nonws (s2l "Si O") = Some c
     /\ is_digit c = false /\ [s2l "Si"; s2l "O"] = map stext (words (mkSpanned 5 0 (s2l "Si O")))
     /\ [s2l "Si"; s2l "O"] <> []
     /\ forallb is_valid_symbol_for_symbol_line [s2l "Si"; s2l "O"] = true
     /\ next (mkLines 6 [s2l "1 2"]) = Ok (mkSpanned 6 0 (s2l "1 2"), mkLines 7 []).
Proof.
  assert (H : symbols_stage (mkSpanned 5 0 (s2l "Si O")) (mkLines 6 [s2l "1 2"])
              = Ok (Some [s2l "Si"; s2l "O"], mkSpanned 6 0 (s2l "1 2"), mkLines 7 []))
    by reflexivity.
  split; [exact H|exact (symbols_stage_spec _ _ _ _ _ H)].
Defined.

(** A line holding only U+00A0. *)
Lemma symbols_stage_blank_word_panics_witness :
  words (mkSpanned 5 0 [160]) <> [] /\ is_blank [160] = true
  /\ symbols_stage (mkSpanned 5 0 [160]) (mkLines 6 [s2l "1"]) = Panic "index out of bounds".
Proof.
  assert (H1 : words (mkSpanned 5 0 [160]) <> []) by (vm_compute; discriminate).
  assert (H2 : is_blank [160] = true) by reflexivity.
  split; [exact H1|split; [exact H2|]].
  exact (symbols_stage_blank_word_panics (mkSpanned 5 0 [160]) _ H1 H2).
Defined.

(** The counts 1 and 12. *)
Lemma counts_line_reread_witness :
  0 < sumN [1; 12] < u64_bound
  /\ counts_block (mkSpanned 6 0 (counts_text [1; 12])) (mkLines 7 [])
     = Ok (None, [1; 12], sumN [1; 12], mkLines 7 []).
Proof.
  assert (H : 0 < sumN [1; 12] < u64_bound) by (split; vm_compute; reflexivity).
  split; [exact H|exact (counts_line_reread 6 (mkLines 7 []) [1; 12] H)].
Defined.

(** The symbols "Si" and "O" with the counts 1 and 2. *)
Lemma symbols_line_reread_witness :
  forallb is_valid_symbol_for_symbol_line [s2l "Si"; s2l "O"] = true
  /\ length [s2l "Si"; s2l "O"] = length [1; 2]
  /\ (exists c, first_nonws (concat [s2l "Si"; s2l "O"]) = Some c /\ is_digit c = false)
  /\ 0 < sumN [1; 2] < u64_bound
  /\ counts_block (mkSpanned 5 0 (symbols_text [s2l "Si"; s2l "O"]))
       (mkLines 6 (counts_text [1; 2] :: [s2l "Direct"]))
     = Ok (Some [s2l "Si"; s2l "O"], [1; 2], sumN [1; 2], mkLines 7 [s2l "Direct"]).
Proof.
  assert (H1 : forallb is_valid_symbol_for_symbol_line [s2l "Si"; s2l "O"] = true) by reflexivity.
  assert (H2 : length [s2l "Si"; s2l "O"] = length [1; 2]) by reflexivity.
  assert (H3 : exists c, first_nonws (concat [s2l "Si"; s2l "O"]) = Some c /\ is_digit c = false)
    by (exists 83; split; reflexivity).
  assert (H4 : 0 < sumN [1; 2] < u64_bound) by (split; vm_compute; reflexivity).
  split; [exact H1|split; [exact H2|split; [exact H3|split; [exact H4|]]]].
  exact (symbols_line_reread 5 [s2l "Direct"] _ _ H1 H2 H3 H4).
Defined.

(** The lines "x" and "1.0", then "y" with no newline. *)
Lemma from_reader_line_endings_witness :
  Forall (fun x => no_lf x = true) [s2l "x"; s2l "1.0"] /\ no_lf (s2l "y") = true
  /\ from_reader _ ToyFloat.parse ToyFloat.cmp ToyFloat.neg
       (text_of [13; 10] [s2l "x"; s2l "1.0"] ++ s2l "y")
     = from_lines _ ToyFloat.parse ToyFloat.cmp ToyFloat.neg [s2l "x"; s2l "1.0"; s2l "y"]
  /\ Forall (fun x => no_final_cr x = true) [s2l "x"; s2l "1.0"]
  /\ from_reader _ ToyFloat.parse ToyFloat.cmp ToyFloat.neg
       (text_of [10] [s2l "x"; s2l "1.0"] ++ s2l "y")
     = from_lines _ ToyFloat.parse ToyFloat.cmp ToyFloat.neg [s2l "x"; s2l "1.0"; s2l "y"].
Proof.
  assert (H1 : Forall (fun x => no_lf x = true) [s2l "x"; s2l "1.0"]) by (repeat constructor).
  assert (H2 : no_lf (s2l "y") = true) by reflexivity.
  assert (H3 : Forall (fun x => no_final_cr x = true) [s2l "x"; s2l "1.0"]) by (repeat constructor).
  destruct (from_reader_line_endings ToyFloat.parse ToyFloat.cmp ToyFloat.neg
              [s2l "x"; s2l "1.0"] (s2l "y") H1 H2) as [E1 E2].
  split; [exact H1|split; [exact H2|split; [exact E1|split; [exact H3|exact (E2 H3)]]]].
Defined.

(** The minimal document with selective dynamics. *)
Lemma write_lines_shape_witness :
  let r := mkPoscar _ (s2l "x") (Factor _ (Some 1%Z))
             ((Some 1%Z, Some 0%Z, Some 0%Z), (Some 0%Z, Some 1%Z, Some 0%Z),
              (Some 0%Z, Some 0%Z, Some 1%Z))
             None [1] (Frac _ [(Some 0%Z, Some 0%Z, Some 0%Z)]) None (Some [(true, false, true)]) in
  exists ls, write_lines _ ToyFloat.print r = Ok ls
    /\ hd_error ls = Some (comment _ r)
    /\ length ls = (7 + match group_symbols _ r with Some _ => 1 | None => 0 end
                    + match dynamics _ r with Some _ => 1 | None => 0 end
                    + length (coords_raw _ (positions _ r))
                    + match velocities _ r with Some v => S (length (coords_raw _ v)) | None => 0 end)%nat.
Proof.
  intro r.
  destruct (write_lines _ ToyFloat.print r) as [ls| |] eqn:E;
    [|vm_compute in E; discriminate E|vm_compute in E; discriminate E].
  exists ls. split; [reflexivity|exact (write_lines_shape ToyFloat.print r ls E)].
Defined.

(** Two positions and one selective dynamics flag. *)
Lemma write_lines_short_dynamics_panics_witness :
  let r := mkPoscar _ (s2l "x") (Factor _ (Some 1%Z))
             ((Some 1%Z, Some 0%Z, Some 0%Z), (Some 0%Z, Some 1%Z, Some 0%Z),
              (Some 0%Z, Some 0%Z, Some 1%Z))
             None [2] (Frac _ [(Some 0%Z, Some 0%Z, Some 0%Z); (Some 1%Z, Some 0%Z, Some 0%Z)])
             None (Some [(true, false, true)]) in
  existsb (fun c => c =? 10) (comment _ r) = false
  /\ existsb (fun c => c =? 13) (comment _ r) = false
  /\ group_counts _ r <> [] /\ dynamics _ r = Some [(true, false, true)]
  /\ (length [(true, false, true)] < length (coords_raw _ (positions _ r)))%nat
  /\ write_lines _ ToyFloat.print r = Panic "index out of bounds".
Proof.
  intro r.
  assert (H1 : existsb (fun c => c =? 10) (comment _ r) = false) by reflexivity.
  assert (H2 : existsb (fun c => c =? 13) (comment _ r) = false) by reflexivity.
  assert (H3 : group_counts _ r <> []) by discriminate.
  assert (H4 : dynamics _ r = Some [(true, false, true)]) by reflexivity.
  assert (H5 : (length [(true, false, true)] < length (coords_raw _ (positions _ r)))%nat)
    by (simpl; lia).
  split; [exact H1|split; [exact H2|split; [exact H3|split; [exact H4|split; [exact H5|]]]]].
  exact (write_lines_short_dynamics_panics ToyFloat.print r _ H1 H2 H3 H4 H5).
Defined.

(** The velocity control line "C" over one velocity. *)
Lemma velocities_block_cartesian_witness :
  velocities_block _ ToyFloat.parse 1 (mkLines 8 [s2l "C"; s2l "1 2 3"])
  = Ok (Some (Cart _ [(Some 1%Z, Some 2%Z, Some 3%Z)]), mkLines 10 [])
  /\ ((exists xs, Cart _ [(Some 1%Z, Some 2%Z, Some 3%Z)] = Cart _ xs)
      <-> starts_with_one_of [99; 67; 107; 75] (s2l "C") = true).
Proof.
  assert (H : velocities_block _ ToyFloat.parse 1 (mkLines 8 [s2l "C"; s2l "1 2 3"])
              = Ok (Some (Cart _ [(Some 1%Z, Some 2%Z, Some 3%Z)]), mkLines 10 []))
    by (vm_compute; reflexivity).
  split; [exact H|exact (velocities_block_cartesian ToyFloat.parse 1 8 _ _ _ _ H)].
Defined.

(** The minimal document followed by the velocity control line "C" only. *)
Lemma from_lines_eof_position_witness :
  let L := map s2l ["x"; "1.0"; "1.0 0.0 0.0"; "0.0 1.0 0.0"; "0.0 0.0 1.0"; "1";
                    "Direct"; "0.0 0.0 0.0"; "C"]%string in
  from_lines _ ToyFloat.parse ToyFloat.cmp ToyFloat.neg L
  = Err (mkErr (Generic "unexpected end of file") (Some 9%nat) None)
  /\ kind (mkErr (Generic "unexpected end of file") (Some 9%nat) None) = Generic "unexpected end of file"
  /\ eline (mkErr (Generic "unexpected end of file") (Some 9%nat) None) = Some (length L)
  /\ ecol (mkErr (Generic "unexpected end of file") (Some 9%nat) None) = None.
Proof.
  intro L.
  assert (H : from_lines _ ToyFloat.parse ToyFloat.cmp ToyFloat.neg L
              = Err (mkErr (Generic "unexpected end of file") (Some 9%nat) None))
    by (vm_compute; reflexivity).
  split; [exact H|split; [reflexivity|]].
  exact (from_lines_eof_position ToyFloat.parse ToyFloat.cmp ToyFloat.neg L _ H eq_refl).
Defined.
